(** * Trajectory planning and motion scheduling of the actuator firmware

    Shallow embedding of [Application/src/TrajectoryPlanning.cpp],
    [Application/inc/TrajectoryPlanning.hpp] and
    [Application/src/MotionControl.cpp].

    Conventions of the embedding:
    - [float32_t] values are idealised as real numbers: rounding, infinities
      and NaN are not represented, except for the operand of the tolerance
      test of [calculateDrawPlan], which is rounded ([to_float32_t]) because
      the constant it is compared with, the double 0.1, is no [float32_t];
    - [uint32_t], [int32_t] and [uint16_t] values are integers of [Z], the
      wrap-around of unsigned arithmetic being written out ([wrap32]);
    - the objects reached through [this->odometry], [this->position] and
      FreeRTOS are collaborators: what the code reads from them during one
      call is an input record ([Env]), what it calls on them is appended to
      a log of calls;
    - a failed [assert] and an array access outside [0..9] end the run with
      a [fault]. *)

From Stdlib Require Import Reals Machin ZArith List Bool Lia Lra QArith Qreals.
Import ListNotations.

Local Open Scope Z_scope.

(** ** Machine integers *)

Definition wrap32 (z : Z) : Z := z mod 2 ^ 32.
Definition wrap16 (z : Z) : Z := z mod 2 ^ 16.

(** ** Reals standing for [float32_t] *)

(** [#define _PI_] and [#define _2_PI_] of TrajectoryPlanning.hpp. *)
Definition _PI_ : R := 3.14159265358979323846%R.
Definition _2_PI_ : R := 6.28318530717958647692%R.

(** [pow(v, 2)] of <math.h>. *)
Definition pow2 (v : R) : R := (v ^ 2)%R.

(** [atan2f(y, x)] of <math.h>: the angle of the point (x, y), in (-PI, PI]. *)
Definition atan2f (y x : R) : R :=
  if Rlt_dec 0 x then atan (y / x)
  else if Rlt_dec x 0 then
         if Rle_dec 0 y then (atan (y / x) + PI)%R else (atan (y / x) - PI)%R
       else if Rlt_dec 0 y then (PI / 2)%R
            else if Rlt_dec y 0 then (- PI / 2)%R else 0%R.

(** [TrajectoryPlanning::abs]. *)
Definition abs (val : R) : R :=
  if Rlt_dec val 0 then (- val)%R else val.

(** *** Conversion to [float32_t] at the tolerance test

    [abs] returns a [float32_t], and [abs(...) <= 0.1] compares it, as a
    double, with the double constant 0.1.  That constant is no
    [float32_t]: it lies between the neighbours 13421772 / 2^27 and
    13421773 / 2^27, the second being 0.1f.  A real that stands for an
    exact quantity passes the test according to the [float32_t] it is
    rounded to, so the operand of the test is rounded here.  From 1/16 to
    1/8 the [float32_t] values are the multiples of 2^-27; outside that
    range rounding to [float32_t] and rounding to these multiples leave a
    real on the same side of 0.1, which is all the test looks at. *)

(** Nearest integer, a tie going to the even one. *)
Definition nearest_even (v : R) : Z :=
  let f := (up v - 1)%Z in
  if Rlt_dec (v - IZR f) (1 / 2) then f
  else if Rlt_dec (1 / 2) (v - IZR f) then (f + 1)%Z
       else if Z.even f then f else (f + 1)%Z.

(** Nearest multiple of 2^-27 (2^27 = 134217728). *)
Definition to_float32_t (v : R) : R :=
  (IZR (nearest_even (v * 134217728)) / 134217728)%R.

(** *** The two "faster path" loops

    [while ((a - r.O) > _PI_) a -= _2_PI_;] and
    [while ((a - r.O) < -_PI_) a += _2_PI_;].
    Each loop is iterated a given number of times at most; the number of
    turns computed from the operands ([turns]) is shown below to be enough
    for the loop to leave through its test. *)

Fixpoint loop_sub (fuel : nat) (a o : R) : R :=
  match fuel with
  | 0%nat => a
  | S fuel' =>
      if Rgt_dec (a - o) _PI_ then loop_sub fuel' (a - _2_PI_)%R o else a
  end.

Fixpoint loop_add (fuel : nat) (a o : R) : R :=
  match fuel with
  | 0%nat => a
  | S fuel' =>
      if Rlt_dec (a - o) (- _PI_) then loop_add fuel' (a + _2_PI_)%R o else a
  end.

(** Number of iterations after which an excess [d] over [_PI_] is gone. *)
Definition turns (d : R) : nat := Z.to_nat (up ((d - _PI_) / _2_PI_)).

Definition while_sub (a o : R) : R := loop_sub (turns (a - o)) a o.
Definition while_add (a o : R) : R := loop_add (turns (o - a)) a o.

(** Both loops in sequence, as in [gotoXY] and [updateXYtoLA]. *)
Definition faster_path (a o : R) : R := while_add (while_sub a o) o.

(** *** Rational arithmetic for bounding the constant [_PI_]

    Partial sums of the series of [2 * atan (1/3) + atan (1/7)], computed
    on rationals. *)

Fixpoint qpow (q : Q) (k : nat) : Q :=
  match k with
  | 0%nat => 1%Q
  | S k' => (q * qpow q k')%Q
  end.

Definition machin_term (k : nat) : Q :=
  (qpow (-1) k *
   (2 * (qpow (1 # 3) (2 * k + 1) / inject_Z (Z.of_nat (2 * k + 1)))
    + qpow (1 # 7) (2 * k + 1) / inject_Z (Z.of_nat (2 * k + 1))))%Q.

Fixpoint qsum (f : nat -> Q) (k : nat) : Q :=
  match k with
  | 0%nat => f 0%nat
  | S k' => (qsum f k' + f (S k'))%Q
  end.

Definition _PI_Q : Q := 314159265358979323846 # 100000000000000000000.

(** ** Faults *)

Inductive fault : Type :=
| AssertionFailed
| IndexOutOfBounds (i : Z).

Inductive result (A : Type) : Type :=
| Ok (a : A)
| Fault (f : fault).
Arguments Ok {A} a.
Arguments Fault {A} f.

Definition bind {A B : Type} (r : result A) (k : A -> result B) : result B :=
  match r with
  | Ok a => k a
  | Fault f => Fault f
  end.

Notation "x <- r ;; k" := (bind r (fun x => k))
  (at level 61, r at next level, right associativity).

(** Guarded read of a ten-element array [float32_t A[10]]. *)
Definition rd (A : Z -> R) (i : Z) : result R :=
  if (0 <=? i) && (i <? 10) then Ok (A i) else Fault (IndexOutOfBounds i).

(** Guarded write [A[i] = v]. *)
Definition wr (A : Z -> R) (i : Z) (v : R) : result (Z -> R) :=
  if (0 <=? i) && (i <? 10)
  then Ok (fun j => if j =? i then v else A j)
  else Fault (IndexOutOfBounds i).

(** * TrajectoryPlanning *)

Module TP.

(** [enum state_t] of TrajectoryPlanning.hpp. *)
Inductive state_t : Type :=
| FREE | LINEAR | ANGULAR | STOP | KEEP
| LINEARPLAN | CURVEPLAN | STALLX | STALLY | DRAWPLAN.

Definition state_eqb (a b : state_t) : bool :=
  match a, b with
  | FREE, FREE | LINEAR, LINEAR | ANGULAR, ANGULAR | STOP, STOP
  | KEEP, KEEP | LINEARPLAN, LINEARPLAN | CURVEPLAN, CURVEPLAN
  | STALLX, STALLX | STALLY, STALLY | DRAWPLAN, DRAWPLAN => true
  | _, _ => false
  end.

(** The fields of [robot_t] that the planner reads ([r.Xmm], [r.O], ...). *)
Record robot_t : Type := {
  r_Xmm : Z;
  r_Ymm : Z;
  r_Lmm : Z;
  r_L : R;
  r_O : R
}.

(** What one call of the planner reads from its collaborators. *)
Record Env : Type := {
  GetRobot : robot_t;              (* odometry->GetRobot(&r) *)
  GetLinearPosition : R;           (* odometry->GetLinearPosition() *)
  GetAngularPosition : R;          (* odometry->GetAngularPosition() *)
  isPositioningFinished : bool;    (* position->isPositioningFinished() *)
  xTaskGetTickCount : Z            (* FreeRTOS tick counter *)
}.

(** The calls made on [this->position] and [this->odometry]. *)
Inductive call : Type :=
| SetLinearPosition (v : R)
| SetAngularPosition (v : R)
| Enable
| Disable
| SetXO (x o : R)
| SetYO (y o : R).

(** The data members of the class, with the function-static cursor [n] of
    [calculateDrawPlan] and the log of outgoing calls. *)
Record t : Type := mk {
  status : Z;
  finished : bool;
  state : state_t;
  step : Z;
  linearSetPoint : R;
  linearNextSetPoint : R;
  angularSetPoint : R;
  stallMode : Z;
  startTime : R;
  startLinearPosition : R;
  startAngularPosition : R;
  endLinearPosition : R;
  endAngularPosition : R;
  X : Z -> R;
  Y : Z -> R;
  XYn : Z;
  n : Z;
  calls : list call
}.

(** Assignment to one member. *)
Definition set_status (v : Z) (s : t) : t :=
  match s with
  | mk f0 f1 f2 f3 f4 f5 f6 f7 f8 f9 f10 f11 f12 f13 f14 f15 f16 f17 =>
      mk v f1 f2 f3 f4 f5 f6 f7 f8 f9 f10 f11 f12 f13 f14 f15 f16 f17
  end.
Definition set_finished (v : bool) (s : t) : t :=
  match s with
  | mk f0 f1 f2 f3 f4 f5 f6 f7 f8 f9 f10 f11 f12 f13 f14 f15 f16 f17 =>
      mk f0 v f2 f3 f4 f5 f6 f7 f8 f9 f10 f11 f12 f13 f14 f15 f16 f17
  end.
Definition set_state (v : state_t) (s : t) : t :=
  match s with
  | mk f0 f1 f2 f3 f4 f5 f6 f7 f8 f9 f10 f11 f12 f13 f14 f15 f16 f17 =>
      mk f0 f1 v f3 f4 f5 f6 f7 f8 f9 f10 f11 f12 f13 f14 f15 f16 f17
  end.
Definition set_step (v : Z) (s : t) : t :=
  match s with
  | mk f0 f1 f2 f3 f4 f5 f6 f7 f8 f9 f10 f11 f12 f13 f14 f15 f16 f17 =>
      mk f0 f1 f2 v f4 f5 f6 f7 f8 f9 f10 f11 f12 f13 f14 f15 f16 f17
  end.
Definition set_linearSetPoint (v : R) (s : t) : t :=
  match s with
  | mk f0 f1 f2 f3 f4 f5 f6 f7 f8 f9 f10 f11 f12 f13 f14 f15 f16 f17 =>
      mk f0 f1 f2 f3 v f5 f6 f7 f8 f9 f10 f11 f12 f13 f14 f15 f16 f17
  end.
Definition set_linearNextSetPoint (v : R) (s : t) : t :=
  match s with
  | mk f0 f1 f2 f3 f4 f5 f6 f7 f8 f9 f10 f11 f12 f13 f14 f15 f16 f17 =>
      mk f0 f1 f2 f3 f4 v f6 f7 f8 f9 f10 f11 f12 f13 f14 f15 f16 f17
  end.
Definition set_angularSetPoint (v : R) (s : t) : t :=
  match s with
  | mk f0 f1 f2 f3 f4 f5 f6 f7 f8 f9 f10 f11 f12 f13 f14 f15 f16 f17 =>
      mk f0 f1 f2 f3 f4 f5 v f7 f8 f9 f10 f11 f12 f13 f14 f15 f16 f17
  end.
Definition set_stallMode (v : Z) (s : t) : t :=
  match s with
  | mk f0 f1 f2 f3 f4 f5 f6 f7 f8 f9 f10 f11 f12 f13 f14 f15 f16 f17 =>
      mk f0 f1 f2 f3 f4 f5 f6 v f8 f9 f10 f11 f12 f13 f14 f15 f16 f17
  end.
Definition set_startTime (v : R) (s : t) : t :=
  match s with
  | mk f0 f1 f2 f3 f4 f5 f6 f7 f8 f9 f10 f11 f12 f13 f14 f15 f16 f17 =>
      mk f0 f1 f2 f3 f4 f5 f6 f7 v f9 f10 f11 f12 f13 f14 f15 f16 f17
  end.
Definition set_startLinearPosition (v : R) (s : t) : t :=
  match s with
  | mk f0 f1 f2 f3 f4 f5 f6 f7 f8 f9 f10 f11 f12 f13 f14 f15 f16 f17 =>
      mk f0 f1 f2 f3 f4 f5 f6 f7 f8 v f10 f11 f12 f13 f14 f15 f16 f17
  end.
Definition set_startAngularPosition (v : R) (s : t) : t :=
  match s with
  | mk f0 f1 f2 f3 f4 f5 f6 f7 f8 f9 f10 f11 f12 f13 f14 f15 f16 f17 =>
      mk f0 f1 f2 f3 f4 f5 f6 f7 f8 f9 v f11 f12 f13 f14 f15 f16 f17
  end.
Definition set_endLinearPosition (v : R) (s : t) : t :=
  match s with
  | mk f0 f1 f2 f3 f4 f5 f6 f7 f8 f9 f10 f11 f12 f13 f14 f15 f16 f17 =>
      mk f0 f1 f2 f3 f4 f5 f6 f7 f8 f9 f10 v f12 f13 f14 f15 f16 f17
  end.
Definition set_endAngularPosition (v : R) (s : t) : t :=
  match s with
  | mk f0 f1 f2 f3 f4 f5 f6 f7 f8 f9 f10 f11 f12 f13 f14 f15 f16 f17 =>
      mk f0 f1 f2 f3 f4 f5 f6 f7 f8 f9 f10 f11 v f13 f14 f15 f16 f17
  end.
Definition set_X (v : Z -> R) (s : t) : t :=
  match s with
  | mk f0 f1 f2 f3 f4 f5 f6 f7 f8 f9 f10 f11 f12 f13 f14 f15 f16 f17 =>
      mk f0 f1 f2 f3 f4 f5 f6 f7 f8 f9 f10 f11 f12 v f14 f15 f16 f17
  end.
Definition set_Y (v : Z -> R) (s : t) : t :=
  match s with
  | mk f0 f1 f2 f3 f4 f5 f6 f7 f8 f9 f10 f11 f12 f13 f14 f15 f16 f17 =>
      mk f0 f1 f2 f3 f4 f5 f6 f7 f8 f9 f10 f11 f12 f13 v f15 f16 f17
  end.
Definition set_XYn (v : Z) (s : t) : t :=
  match s with
  | mk f0 f1 f2 f3 f4 f5 f6 f7 f8 f9 f10 f11 f12 f13 f14 f15 f16 f17 =>
      mk f0 f1 f2 f3 f4 f5 f6 f7 f8 f9 f10 f11 f12 f13 f14 v f16 f17
  end.
Definition set_n (v : Z) (s : t) : t :=
  match s with
  | mk f0 f1 f2 f3 f4 f5 f6 f7 f8 f9 f10 f11 f12 f13 f14 f15 f16 f17 =>
      mk f0 f1 f2 f3 f4 f5 f6 f7 f8 f9 f10 f11 f12 f13 f14 f15 v f17
  end.
Definition set_calls (v : list call) (s : t) : t :=
  match s with
  | mk f0 f1 f2 f3 f4 f5 f6 f7 f8 f9 f10 f11 f12 f13 f14 f15 f16 f17 =>
      mk f0 f1 f2 f3 f4 f5 f6 f7 f8 f9 f10 f11 f12 f13 f14 f15 f16 v
  end.

Definition emit (c : call) (s : t) : t := set_calls (calls s ++ [c]) s.

(** Inline observers of the header. *)
Definition GetStatus (s : t) : Z := status s.
Definition isFinished (s : t) : bool := finished s.
Definition GetStep (s : t) : Z := wrap32 (step s).

(** The constructor; [X_raw] and [Y_raw] are the contents of the two arrays
    before it runs (only element 0 of each is initialised). *)
Definition TrajectoryPlanning (X_raw Y_raw : Z -> R) : t :=
  {| status := 0; finished := true; state := FREE; step := 0;
     linearSetPoint := 0; linearNextSetPoint := 0; angularSetPoint := 0;
     stallMode := 0; startTime := 0;
     startLinearPosition := 0; startAngularPosition := 0;
     endLinearPosition := 0; endAngularPosition := 0;
     X := fun j => if j =? 0 then 0%R else X_raw j;
     Y := fun j => if j =? 0 then 0%R else Y_raw j;
     XYn := 0; n := 0; calls := [] |}.

(** ** Orders *)

Definition goLinear (e : Env) (linear : R) (s : t) : t :=
  let Lm := GetLinearPosition e in
  set_step 1 (set_state LINEAR (set_linearSetPoint (Lm + linear)%R s)).

Definition goAngular (angular : R) (s : t) : t :=
  set_step 1 (set_state ANGULAR (set_angularSetPoint angular s)).

Definition freewheel (s : t) : t := set_step 1 (set_state FREE s).

Definition stop (s : t) : t := set_step 1 (set_state STOP s).

Definition gotoXY (e : Env) (x y : R) (s : t) : t :=
  let r := GetRobot e in
  let Xm := (IZR (r_Xmm r) / 1000)%R in
  let Ym := (IZR (r_Ymm r) / 1000)%R in
  let Lm := (IZR (r_Lmm r) / 1000)%R in
  let XX := pow2 (x - Xm) in
  let YY := pow2 (y - Ym) in
  let dX := (x - Xm)%R in
  let dY := (y - Ym)%R in
  let s := set_linearSetPoint (Lm + sqrt (XX + YY))%R s in
  let s := set_angularSetPoint (atan2f dY dX) s in
  let s := set_angularSetPoint (faster_path (angularSetPoint s) (r_O r)) s in
  set_step 1 (set_state LINEARPLAN s).

(** The copy loop of [pushXY]: [for (i = 0; i < n; i++)], [k] iterations
    left, the next one at index [i]. *)
Fixpoint pushXY_loop (k : nat) (i : Z) (Xin Yin : Z -> R) (s : t) : result t :=
  match k with
  | 0%nat => Ok s
  | S k' =>
      X' <- wr (X s) i (Xin i) ;;
      Y' <- wr (Y s) i (Yin i) ;;
      pushXY_loop k' (i + 1) Xin Yin (set_Y Y' (set_X X' s))
  end.

(** [Xin] and [Yin] are the caller's arrays, [cnt] the parameter [n]. *)
Definition pushXY (Xin Yin : Z -> R) (cnt : Z) (s : t) : result t :=
  if cnt <? 10 then
    s <- pushXY_loop (Z.to_nat cnt) 0 Xin Yin s ;;
    Ok (set_step 1 (set_state DRAWPLAN (set_XYn cnt s)))
  else Fault AssertionFailed.

Definition stallX (e : Env) (mode : Z) (s : t) : t :=
  let r := GetRobot e in
  let s := set_startLinearPosition (r_L r) s in
  let s := set_startAngularPosition (r_O r) s in
  let s := set_endLinearPosition (startLinearPosition s - 0)%R s in
  let s := set_endAngularPosition 0%R s in
  set_step 1 (set_state STALLX s).

Definition stallY (e : Env) (mode : Z) (s : t) : t :=
  let r := GetRobot e in
  let s := set_startLinearPosition (r_L r) s in
  let s := set_startAngularPosition (r_O r) s in
  let s := set_endLinearPosition (startLinearPosition s - 0)%R s in
  let s := set_endAngularPosition (_PI_ / 2)%R s in
  set_step 1 (set_state STALLY s).

(** ** The sub-protocols run by [update] *)

Definition calculateGoLinear (e : Env) (s : t) : t :=
  match step s with
  | 1 =>
      let s := emit (SetLinearPosition (linearSetPoint s)) s in
      let s := emit (SetAngularPosition (GetAngularPosition e)) s in
      set_step 2 s
  | 2 =>
      if isPositioningFinished e then set_state FREE (set_step 3 s) else s
  | _ => s
  end.

Definition calculateGoAngular (e : Env) (s : t) : t :=
  match step s with
  | 1 =>
      let s := emit (SetLinearPosition (GetLinearPosition e)) s in
      let s := emit (SetAngularPosition (angularSetPoint s)) s in
      set_step 2 s
  | 2 =>
      if isPositioningFinished e then set_state FREE (set_step 3 s) else s
  | _ => s
  end.

Definition calculateFree (s : t) : t := emit Disable s.
Definition calculateMove (s : t) : t := emit Enable s.
Definition calculateStop (s : t) : t := emit Disable s.
Definition calculateKeepPosition (s : t) : t := s.
Definition calculateCurvePlan (s : t) : t := s.

Definition calculateLinearPlan (e : Env) (s : t) : t :=
  match step s with
  | 1 =>
      let s := emit (SetLinearPosition (GetLinearPosition e)) s in
      let s := emit (SetAngularPosition (angularSetPoint s)) s in
      set_step 2 s
  | 2 => if isPositioningFinished e then set_step 3 s else s
  | 3 => set_step 4 s
  | 4 =>
      let s := emit (SetLinearPosition (linearSetPoint s)) s in
      let s := emit (SetAngularPosition (GetAngularPosition e)) s in
      set_step 5 s
  | 5 =>
      if isPositioningFinished e then set_state FREE (set_step 6 s) else s
  | _ => s
  end.

(** The accumulation loop of [updateXYtoLA]:
    [for (i = n; i < XYn - 1; i++) linearSetPoint += |P[i] - P[i-1]|],
    [k] iterations left, the next one at index [i]. *)
Fixpoint segments_loop (k : nat) (i : Z) (s : t) : result t :=
  match k with
  | 0%nat => Ok s
  | S k' =>
      xi <- rd (X s) i ;;
      xp <- rd (X s) (wrap32 (i - 1)) ;;
      let XX := pow2 (xi - xp) in
      yi <- rd (Y s) i ;;
      yp <- rd (Y s) (wrap32 (i - 1)) ;;
      let YY := pow2 (yi - yp) in
      segments_loop k' (wrap32 (i + 1))
        (set_linearSetPoint (linearSetPoint s + sqrt (XX + YY))%R s)
  end.

(** [cur] is the parameter [n] of the source. *)
Definition updateXYtoLA (e : Env) (cur : Z) (s : t) : result t :=
  let r := GetRobot e in
  let Xm := (IZR (r_Xmm r) / 1000)%R in
  let Ym := (IZR (r_Ymm r) / 1000)%R in
  let Lm := (IZR (r_Lmm r) / 1000)%R in
  xn <- rd (X s) cur ;;
  let XX := pow2 (xn - Xm) in
  yn <- rd (Y s) cur ;;
  let YY := pow2 (yn - Ym) in
  let dX := (xn - Xm)%R in
  let dY := (yn - Ym)%R in
  let s := set_linearSetPoint (Lm + sqrt (XX + YY))%R s in
  let s := set_angularSetPoint (atan2f dY dX) s in
  let s := set_angularSetPoint (faster_path (angularSetPoint s) (r_O r)) s in
  let s := set_linearNextSetPoint (linearSetPoint s) s in
  if 2 <=? XYn s
  then segments_loop (Z.to_nat (wrap32 (XYn s - 1) - cur)) cur s
  else Ok s.

(** [case 2] of [calculateDrawPlan], also reached from [case 1]. *)
Definition drawPlan_case2 (e : Env) (s : t) : result t :=
  s <- updateXYtoLA e (n s) s ;;
  let currentLinearPosition := GetLinearPosition e in
  if Rle_dec
       (to_float32_t (abs (linearNextSetPoint s - currentLinearPosition))) 0.1
  then
    let s := set_n (wrap32 (n s + 1)) s in
    let s := set_step 2 s in
    let s := if wrap32 (XYn s - 1) <=? n s then set_step 3 s else s in
    updateXYtoLA e (n s) s
  else Ok s.

(** The second [switch] of the source has only empty cases. *)
Definition calculateDrawPlan (e : Env) (s : t) : result t :=
  match step s with
  | 1 =>
      let s := set_n 0 s in
      let s := set_step 2 s in
      s <- updateXYtoLA e (n s) s ;;
      drawPlan_case2 e s
  | 2 => drawPlan_case2 e s
  | 3 =>
      s <- updateXYtoLA e (n s) s ;;
      let currentLinearPosition := GetLinearPosition e in
      if Rle_dec
           (to_float32_t (abs (linearSetPoint s - currentLinearPosition))) 0.1
      then Ok (set_step 4 s) else Ok s
  | 4 =>
      s <- updateXYtoLA e (n s) s ;;
      Ok (set_state FREE (set_step 5 s))
  | _ => Ok s
  end.

(** [getTime]: the tick counter, in seconds. *)
Definition getTime (e : Env) : R := (IZR (xTaskGetTickCount e) / 1000)%R.

(** The locals [time] and [profile] are computed and never used; both
    [jackBackLeft] and [jackBackRight] are the constant [true]. *)
Definition calculateStallX (e : Env) (mode : Z) (s : t) : t :=
  let jackBackLeft := true in
  let jackBackRight := true in
  let s := match step s with
           | 1 => set_step 2 s
           | 2 => if jackBackLeft && jackBackRight then set_step 3 s else s
           | _ => s
           end in
  match step s with
  | 1 => emit (SetAngularPosition 0%R) s
  | 3 => emit (SetXO 0%R 0%R) s
  | _ => s
  end.

Definition calculateStallY (e : Env) (mode : Z) (s : t) : t :=
  let jackBackLeft := true in
  let jackBackRight := true in
  let s := match step s with
           | 1 => set_step 2 s
           | 2 => if jackBackLeft && jackBackRight then set_step 3 s else s
           | _ => s
           end in
  match step s with
  | 1 => emit (SetAngularPosition (_PI_ / 2)%R) s
  | 3 => emit (SetYO 0%R (_PI_ / 2)%R) s
  | _ => s
  end.

(** ** The update cycle *)

(** In-progress test of [update]: [state != FREE && state != STOP]. *)
Definition moving (st : state_t) : bool :=
  negb (state_eqb st FREE) && negb (state_eqb st STOP).

Definition update (e : Env) (s : t) : result t :=
  let s :=
    if moving (state s) then
      let s := set_status (wrap16 (Z.lor (status s) (Z.shiftl 1 8))) s in
      let s := set_finished false s in
      calculateMove s
    else
      let s := set_status
                 (wrap16 (Z.land (status s) (Z.lnot (Z.shiftl 1 8)))) s in
      set_finished true s in
  match state s with
  | LINEAR => Ok (calculateGoLinear e s)
  | ANGULAR => Ok (calculateGoAngular e s)
  | FREE => Ok (calculateFree s)
  | STOP => Ok (calculateStop s)
  | KEEP => Ok (calculateKeepPosition s)
  | LINEARPLAN => Ok (calculateLinearPlan e s)
  | DRAWPLAN => calculateDrawPlan e s
  | CURVEPLAN => Ok (calculateCurvePlan s)
  | STALLX => Ok (calculateStallX e 1 s)
  | STALLY => Ok (calculateStallY e 1 s)
  end.

Definition Compute (e : Env) (period : R) (s : t) : result t :=
  let s := set_status (wrap16 (Z.lor (status s) (Z.shiftl 1 0))) s in
  update e s.

(** A run of the machine: update ticks ([update], or [Compute] as the
    scheduler calls it) and orders. *)
Inductive op : Type :=
| OpUpdate
| OpCompute (period : R)
| OpGoLinear (linear : R)
| OpGoAngular (angular : R)
| OpFreewheel
| OpStop
| OpGotoXY (x y : R)
| OpPushXY (Xin Yin : Z -> R) (cnt : Z)
| OpStallX (mode : Z)
| OpStallY (mode : Z).

Definition exec (e : Env) (o : op) (s : t) : result t :=
  match o with
  | OpUpdate => update e s
  | OpCompute period => Compute e period s
  | OpGoLinear d => Ok (goLinear e d s)
  | OpGoAngular a => Ok (goAngular a s)
  | OpFreewheel => Ok (freewheel s)
  | OpStop => Ok (stop s)
  | OpGotoXY x y => Ok (gotoXY e x y s)
  | OpPushXY Xin Yin cnt => pushXY Xin Yin cnt s
  | OpStallX m => Ok (stallX e m s)
  | OpStallY m => Ok (stallY e m s)
  end.

Fixpoint run (l : list (Env * op)) (s : t) : result t :=
  match l with
  | [] => Ok s
  | (e, o) :: l' => s' <- exec e o s ;; run l' s'
  end.

Definition is_tick (o : op) : bool :=
  match o with
  | OpUpdate | OpCompute _ => true
  | _ => false
  end.

Definition is_order (o : op) : bool := negb (is_tick o).

(** Update ticks only. *)
Definition ticks (es : list Env) (s : t) : result t :=
  run (map (fun e => (e, OpUpdate)) es) s.

End TP.

(** * FBMotionControl *)

Module MC.

(** The task periods of MotionControl.cpp, in milliseconds. *)
Definition MC_TASK_PERIOD_MS : Z := 5.
Definition SENS_TASK_PERIOD_MS : Z := 200.
Definition TP_TASK_PERIOD_MS : Z := 200.
Definition PC_TASK_PERIOD_MS : Z := 100.

(** The commands of the queue.  [cmd_t] and the [CMD_ID_*] constants are
    declared in MotionControl.hpp; [Compute] reads the identifier and the
    members [data.d], [data.a], [data.xy.x] and [data.xy.y], and sends every
    identifier but three to its [default] case. *)
Inductive cmd_id : Type :=
| CMD_ID_GOLIN
| CMD_ID_GOANG
| CMD_ID_GOTO
| CMD_ID_other (k : Z).

Record cmd_t : Type := {
  id : cmd_id;
  data_d : R;
  data_a : R;
  data_xy_x : R;
  data_xy_y : R
}.

(** What one call of [Compute] reads from outside: the planner's inputs and
    the front telemeter. *)
Record Env : Type := {
  tp_env : TP.Env;
  Detect : bool                    (* telAv->Detect() *)
}.

(** Calls of the scheduler into the planner and the position loop. *)
Inductive event : Type :=
| EvPcEnable
| EvPcDisable
| EvStop
| EvReceive (c : option cmd_t)
| EvTpCompute (period : R)
| EvPcCompute (period : R).

(** The members used by [Compute], the function-static [localTime] and the
    log of events. *)
Record t : Type := mk {
  status : Z;
  enable : bool;
  safeguard : bool;
  localTime : Z;
  Qorders : list cmd_t;
  tp : TP.t;
  events : list event
}.

Definition set_status (v : Z) (m : t) : t :=
  match m with
  | mk f0 f1 f2 f3 f4 f5 f6 =>
      mk v f1 f2 f3 f4 f5 f6
  end.
Definition set_enable (v : bool) (m : t) : t :=
  match m with
  | mk f0 f1 f2 f3 f4 f5 f6 =>
      mk f0 v f2 f3 f4 f5 f6
  end.
Definition set_safeguard (v : bool) (m : t) : t :=
  match m with
  | mk f0 f1 f2 f3 f4 f5 f6 =>
      mk f0 f1 v f3 f4 f5 f6
  end.
Definition set_localTime (v : Z) (m : t) : t :=
  match m with
  | mk f0 f1 f2 f3 f4 f5 f6 =>
      mk f0 f1 f2 v f4 f5 f6
  end.
Definition set_Qorders (v : list cmd_t) (m : t) : t :=
  match m with
  | mk f0 f1 f2 f3 f4 f5 f6 =>
      mk f0 f1 f2 f3 v f5 f6
  end.
Definition set_tp (v : TP.t) (m : t) : t :=
  match m with
  | mk f0 f1 f2 f3 f4 f5 f6 =>
      mk f0 f1 f2 f3 f4 v f6
  end.
Definition set_events (v : list event) (m : t) : t :=
  match m with
  | mk f0 f1 f2 f3 f4 f5 f6 =>
      mk f0 f1 f2 f3 f4 f5 v
  end.

Definition record (ev : event) (m : t) : t :=
  set_events (events m ++ [ev]) m.

Definition Enable (m : t) : t := record EvPcEnable (set_enable true m).
Definition Disable (m : t) : t := record EvPcDisable (set_enable false m).

(** [status |= (1 << b)] and [status &= ~(1 << b)] on the 16 flags. *)
Definition set_bit (b : Z) (w : Z) : Z := wrap16 (Z.lor w (Z.shiftl 1 b)).
Definition clear_bit (b : Z) (w : Z) : Z :=
  wrap16 (Z.land w (Z.lnot (Z.shiftl 1 b))).

(** Modelled from the spec: [FBMotionControl::Stop], defined in
    MotionControl.hpp and missing from the sources.  The specification says
    that on an obstruction the scheduler "immediately issue[s] Stop to the
    Trajectory State Machine": the planner's [stop] order. *)
Definition Stop (m : t) : t :=
  record EvStop (set_tp (TP.stop (tp m)) m).

(** The [switch (cmd.id)] of [Compute]. *)
Definition dispatch (e : Env) (cmd : cmd_t) (s : TP.t) : TP.t :=
  match id cmd with
  | CMD_ID_GOLIN => TP.goLinear (tp_env e) (data_d cmd) s
  | CMD_ID_GOANG => TP.goAngular (data_a cmd) s
  | CMD_ID_GOTO => TP.gotoXY (tp_env e) (data_xy_x cmd) (data_xy_y cmd) s
  | CMD_ID_other _ => s
  end.

(** "1- Pull orders one by one": [xQueueReceive] with a zero timeout takes
    the head of the queue when there is one. *)
Definition pull (e : Env) (m : t) : t :=
  if TP.isFinished (tp m) then
    match Qorders m with
    | cmd :: q =>
        let m := record (EvReceive (Some cmd)) (set_Qorders q m) in
        set_tp (dispatch e cmd (tp m)) m
    | [] => record (EvReceive None) m
    end
  else m.

(** The status update that opens [Compute]. *)
Definition refresh (m : t) : t :=
  let m := if enable m then set_status (set_bit 0 (status m)) m
           else set_status (clear_bit 0 (status m)) m in
  let m := if safeguard m then set_status (set_bit 1 (status m)) m
           else set_status (clear_bit 1 (status m)) m in
  if TP.isFinished (tp m) then set_status (set_bit 8 (status m)) m
  else set_status (clear_bit 8 (status m)) m.

Definition due (m : t) (period_ms : Z) : bool :=
  localTime m mod period_ms =? 0.

Definition Compute (e : Env) (period : R) (m : t) : result t :=
  let m := refresh m in
  let m := set_localTime (wrap32 (localTime m + MC_TASK_PERIOD_MS)) m in
  if negb (enable m) then Ok m
  else
    let m := if due m SENS_TASK_PERIOD_MS
             then (if Detect e then Stop m else m)
             else m in
    m <- (if due m TP_TASK_PERIOD_MS then
            let m := pull e m in
            let hint := (period * IZR TP_TASK_PERIOD_MS
                         / IZR MC_TASK_PERIOD_MS)%R in
            let m := record (EvTpCompute hint) m in
            s <- TP.Compute (tp_env e) hint (tp m) ;;
            Ok (set_tp s m)
          else Ok m) ;;
    Ok (if due m PC_TASK_PERIOD_MS
        then record (EvPcCompute (period * IZR PC_TASK_PERIOD_MS
                                  / IZR MC_TASK_PERIOD_MS)%R) m
        else m).

(** The constructor: enabled, safeguard armed, empty queue of capacity 10,
    the planner as its own constructor leaves it. *)
Definition FBMotionControl (X_raw Y_raw : Z -> R) : t :=
  {| status := 0; enable := true; safeguard := true; localTime := 0;
     Qorders := []; tp := TP.TrajectoryPlanning X_raw Y_raw; events := [] |}.

(** Successive calls of [Compute], one input record and period per call. *)
Fixpoint runs (l : list (Env * R)) (m : t) : result t :=
  match l with
  | [] => Ok m
  | (e, period) :: l' => m' <- Compute e period m ;; runs l' m'
  end.

(** The tick that is about to run is on the 200 ms grid of the telemeter
    and of the planner. *)
Definition sens_tick (m : t) : Prop :=
  wrap32 (localTime m + MC_TASK_PERIOD_MS) mod SENS_TASK_PERIOD_MS = 0.
Definition tp_tick (m : t) : Prop :=
  wrap32 (localTime m + MC_TASK_PERIOD_MS) mod TP_TASK_PERIOD_MS = 0.

End MC.

(** * Diag: the status lights *)

Module Diag.

(** The four lights, [led1] to [led4]. *)
Inductive led : Type := led1 | led2 | led3 | led4.

(** [HAL::GPIO::Low] and [HAL::GPIO::High]. *)
Inductive level : Type := Low | High.

(** The calls made on the lights. *)
Inductive gpio_call : Type :=
| Toggle (l : led)
| Set_ (l : led) (v : level).

(** C truth of [status & (1 << b)]. *)
Definition flag (status b : Z) : bool :=
  negb (Z.land status (Z.shiftl 1 b) =? 0).

(** [Diag::Led].  [localTime] is the function-static counter before the
    call, [status] is what [mc->GetStatus()] returns; the result is the
    counter after the call and the calls made, in order. *)
Definition Led (localTime status : Z) : Z * list gpio_call :=
  let localTime := wrap32 (localTime + 10) in
  let c1 := if localTime mod 500 =? 0 then [Toggle led1] else [] in
  let c2 := if flag status 8 then [Set_ led2 Low] else [Set_ led2 High] in
  let c3 := if flag status 9
            then (if localTime mod 100 =? 0 then [Toggle led3] else [])
            else [Set_ led3 High] in
  let c4 :=
    if (Z.land status (Z.shiftl 1 1) =? 0) && (Z.land status (Z.shiftl 1 0) =? 0)
    then (if localTime mod 100 =? 0 then [Toggle led4] else [])
    else if Z.land status (Z.shiftl 1 1) =? 0
    then (if localTime mod 200 =? 0 then [Toggle led4] else [])
    else if Z.land status (Z.shiftl 1 0) =? 0
    then (if localTime mod 300 =? 0 then [Toggle led4] else [])
    else [Set_ led4 High] in
  (localTime, c1 ++ c2 ++ c3 ++ c4).

End Diag.

(** * Notions used by the statements *)

(** Number of ticks of a run in which the servo reports its arrival. *)
Definition arrivals (es : list TP.Env) : nat :=
  length (filter TP.isPositioningFinished es).

(** The modes that no tick ever leaves. *)
Definition absorbing (st : TP.state_t) : Prop :=
  st = TP.KEEP \/ st = TP.CURVEPLAN \/ st = TP.STALLX \/ st = TP.STALLY.

(** The modes the scheduler can put the planner in. *)
Definition scheduled (st : TP.state_t) : Prop :=
  st = TP.FREE \/ st = TP.LINEAR \/ st = TP.ANGULAR \/
  st = TP.LINEARPLAN \/ st = TP.STOP.

(** Ticks and arrivals a rotate-then-translate order still needs at a
    given step. *)
Definition ticks_left (step : Z) : nat :=
  match step with
  | 1 => 5%nat | 2 => 4%nat | 3 => 3%nat | 4 => 2%nat | 5 => 1%nat
  | _ => 0%nat
  end.
Definition arrivals_left (step : Z) : nat :=
  match step with
  | 1 | 2 => 2%nat | 3 | 4 | 5 => 1%nat
  | _ => 0%nat
  end.

(** The calls a tick has added to the log [before]. *)
Definition added {A : Type} (before after new : list A) : Prop :=
  after = before ++ new.


(** Euclidean distance between (x1, y1) and (x2, y2). *)
Definition distance (x1 y1 x2 y2 : R) : R :=
  sqrt ((x2 - x1) ^ 2 + (y2 - y1) ^ 2)%R.

(** The pose the planner works with, in metres: [r.Xmm / 1000] and so on. *)
Definition Xm (e : TP.Env) : R := (IZR (TP.r_Xmm (TP.GetRobot e)) / 1000)%R.
Definition Ym (e : TP.Env) : R := (IZR (TP.r_Ymm (TP.GetRobot e)) / 1000)%R.
Definition Lm (e : TP.Env) : R := (IZR (TP.r_Lmm (TP.GetRobot e)) / 1000)%R.
Definition heading (e : TP.Env) : R := TP.r_O (TP.GetRobot e).

(** The mode is one of the two idle ones. *)
Definition idle (st : TP.state_t) : Prop := st = TP.FREE \/ st = TP.STOP.

(** The equivalence between the [finished] flag and an idle mode. *)
Definition finished_iff_idle (s : TP.t) : Prop :=
  TP.finished s = true <-> idle (TP.state s).

(** [goLinear] stores the set point and the planner reports "not finished"
    as soon as the order is issued. *)
Definition goLinear_busy_at_once (e : TP.Env) (d : R) (s : TP.t) : Prop :=
  TP.linearSetPoint (TP.goLinear e d s) = (TP.GetLinearPosition e + d)%R /\
  TP.isFinished (TP.goLinear e d s) = false.

(** [pushXY] turns down more than ten way points and returns with the
    planner as it was; it accepts up to ten. *)
Definition pushXY_rejects_quietly
    (Xin Yin : Z -> R) (cnt : Z) (s : TP.t) : Prop :=
  (10 < cnt -> TP.pushXY Xin Yin cnt s = Ok s) /\
  (0 <= cnt <= 10 ->
   exists s', TP.pushXY Xin Yin cnt s = Ok s' /\ TP.state s' = TP.DRAWPLAN).


(** Length of the segment from way point [i] to way point [i + 1]. *)
Definition segment (s : TP.t) (i : Z) : R :=
  distance (TP.X s i) (TP.Y s i) (TP.X s (i + 1)) (TP.Y s (i + 1)).

(** Sum of the [k] segments that start at way points [i], [i + 1], ... *)
Fixpoint path_length (s : TP.t) (k : nat) (i : Z) : R :=
  match k with
  | 0%nat => 0%R
  | S k' => (segment s i + path_length s k' (i + 1))%R
  end.

(** An obstruction seen on a call of [Compute] that falls on the
    obstacle-check grid, the scheduler enabled and the planner in a mode
    other than FREE and STOP, leaves the planner in the mode STOP. *)
Definition obstacle_forces_stop
    (e : MC.Env) (period : R) (m : MC.t) : Prop :=
  MC.enable m = true ->
  MC.sens_tick m ->
  MC.Detect e = true ->
  TP.moving (TP.state (MC.tp m)) = true ->
  exists m', MC.Compute e period m = Ok m' /\
             TP.state (MC.tp m') = TP.STOP.

(** A moving planner is one that does not report "finished". *)
Definition coherent (s : TP.t) : Prop :=
  TP.moving (TP.state s) = true -> TP.finished s = false.

(** States of the scheduler reached from its constructor by calls of
    [Compute], [Enable] and [Disable], with producers filling the queue in
    between. *)
Inductive reachable : MC.t -> Prop :=
| reach_init (X_raw Y_raw : Z -> R) :
    reachable (MC.FBMotionControl X_raw Y_raw)
| reach_Compute (e : MC.Env) (period : R) (m m' : MC.t) :
    reachable m -> MC.Compute e period m = Ok m' -> reachable m'
| reach_Enable (m : MC.t) : reachable m -> reachable (MC.Enable m)
| reach_Disable (m : MC.t) : reachable m -> reachable (MC.Disable m)
| reach_queue (m : MC.t) (q : list MC.cmd_t) :
    reachable m -> reachable (MC.set_Qorders q m).

(** ** Stages of the scheduler's [Compute] *)

(** The stage of [Compute] before the sub-schedules: status refreshed,
    clock advanced. *)
Definition clocked (m : MC.t) : MC.t :=
  MC.set_localTime
    (wrap32 (MC.localTime (MC.refresh m) + MC.MC_TASK_PERIOD_MS))
    (MC.refresh m).

(** The stage after the telemeter has been looked at. *)
Definition sensed (e : MC.Env) (m : MC.t) : MC.t :=
  if MC.Detect e then MC.Stop (clocked m) else clocked m.

(** The two period hints. *)
Definition tp_hint (period : R) : R :=
  (period * IZR MC.TP_TASK_PERIOD_MS / IZR MC.MC_TASK_PERIOD_MS)%R.
Definition pc_hint (period : R) : R :=
  (period * IZR MC.PC_TASK_PERIOD_MS / IZR MC.MC_TASK_PERIOD_MS)%R.

(** ** Sample inputs *)

Definition robot0 : TP.robot_t :=
  {| TP.r_Xmm := 0; TP.r_Ymm := 0; TP.r_Lmm := 0;
     TP.r_L := 0%R; TP.r_O := 0%R |}.

(** The robot at the origin, heading 0, the servo not arrived. *)
Definition env0 : TP.Env :=
  {| TP.GetRobot := robot0; TP.GetLinearPosition := 0%R;
     TP.GetAngularPosition := 0%R; TP.isPositioningFinished := false;
     TP.xTaskGetTickCount := 0 |}.

(** The same with the servo arrived. *)
Definition env_arrived : TP.Env :=
  {| TP.GetRobot := robot0; TP.GetLinearPosition := 0%R;
     TP.GetAngularPosition := 0%R; TP.isPositioningFinished := true;
     TP.xTaskGetTickCount := 0 |}.

Definition zeros : Z -> R := fun _ => 0%R.

(** The planner as constructed. *)
Definition tp0 : TP.t := TP.TrajectoryPlanning zeros zeros.

(** Way points (0,0), (1,0), (3,0). *)
Definition Xs : Z -> R :=
  fun j => if j =? 1 then 1%R else if j =? 2 then 3%R else 0%R.
Definition Ys : Z -> R := zeros.

(** The robot on way point 1, one metre travelled. *)
Definition env_wp1 : TP.Env :=
  {| TP.GetRobot := {| TP.r_Xmm := 1000; TP.r_Ymm := 0; TP.r_Lmm := 1000;
                       TP.r_L := 1%R; TP.r_O := 0%R |};
     TP.GetLinearPosition := 1%R; TP.GetAngularPosition := 0%R;
     TP.isPositioningFinished := false; TP.xTaskGetTickCount := 0 |}.

(** The planner on the path [Xs], [Ys], heading for way point 1. *)
Definition tp_drawing : TP.t :=
  TP.set_n 1
    (TP.set_step 2
       (TP.set_state TP.DRAWPLAN
          (TP.set_XYn 3 (TP.set_Y Ys (TP.set_X Xs tp0))))).

(** The front telemeter reporting an obstruction, and not. *)
Definition env_obstacle : MC.Env := {| MC.tp_env := env0; MC.Detect := true |}.
Definition env_clear : MC.Env := {| MC.tp_env := env0; MC.Detect := false |}.

(** The command "one metre straight on". *)
Definition cmd_golin : MC.cmd_t :=
  {| MC.id := MC.CMD_ID_GOLIN; MC.data_d := 1%R; MC.data_a := 0%R;
     MC.data_xy_x := 0%R; MC.data_xy_y := 0%R |}.

(** The scheduler as constructed, one command waiting. *)
Definition mc_loaded : MC.t :=
  MC.set_Qorders [cmd_golin] (MC.FBMotionControl zeros zeros).

(** The same, one call before the 200 ms mark. *)
Definition mc_due : MC.t := MC.set_localTime 195 mc_loaded.

(** The same, the planner given a linear order directly, which no tick has
    seen yet: the mode is LINEAR and [finished] still true. *)
Definition mc_fresh_order : MC.t :=
  MC.set_tp (TP.goLinear env0 1%R tp0) mc_due.

(** The scheduler as constructed, two commands waiting. *)
Definition mc_loaded2 : MC.t :=
  MC.set_Qorders [cmd_golin; cmd_golin] (MC.FBMotionControl zeros zeros).

(** A command whose identifier [Compute] does not know. *)
Definition cmd_unknown : MC.cmd_t :=
  {| MC.id := MC.CMD_ID_other 99; MC.data_d := 1%R; MC.data_a := 0%R;
     MC.data_xy_x := 0%R; MC.data_xy_y := 0%R |}.

(** The scheduler one call before the 200 ms mark, an unknown command
    ahead of a known one. *)
Definition mc_due_unknown : MC.t :=
  MC.set_localTime 195
    (MC.set_Qorders [cmd_unknown; cmd_golin] (MC.FBMotionControl zeros zeros)).

(** The scheduler on the last multiple of 5 ms that fits 32 bits. *)
Definition mc_last_lap : MC.t := MC.set_localTime 4294967295 mc_loaded.

(** * The faster-path loops *)

Section FasterPath.
Local Open Scope R_scope.

Lemma _PI_pos : 0 < _PI_.
Proof. unfold _PI_; lra. Qed.

Lemma _2_PI_double : _2_PI_ = 2 * _PI_.
Proof. unfold _2_PI_, _PI_; lra. Qed.

Lemma turns_enough (d : R) : (d - _PI_) / _2_PI_ <= INR (turns d).
Proof.
  unfold turns; set (x := (d - _PI_) / _2_PI_).
  destruct (archimed x) as [Hup _].
  destruct (Z_lt_le_dec (up x) 0) as [Hneg | Hpos].
  - assert (E : Z.to_nat (up x) = 0%nat) by lia.
    rewrite E; simpl. apply IZR_lt in Hneg. lra.
  - rewrite INR_IZR_INZ, Z2Nat.id by lia. lra.
Qed.

(** One turn less to go after one iteration. *)
Lemma excess_step (d : R) :
  (d - _2_PI_ - _PI_) / _2_PI_ = (d - _PI_) / _2_PI_ - 1.
Proof.
  assert (P2 : _2_PI_ <> 0) by (unfold _2_PI_; lra).
  field. exact P2.
Qed.

Lemma excess_nonpos (d : R) : (d - _PI_) / _2_PI_ <= 0 -> d <= _PI_.
Proof.
  intros H. assert (P2 : 0 < _2_PI_) by (unfold _2_PI_; lra).
  apply Rmult_le_compat_r with (r := _2_PI_) in H; [| lra].
  unfold Rdiv in H. rewrite Rmult_assoc, Rinv_l, Rmult_0_l in H; lra.
Qed.

(** With enough iterations allowed, [loop_sub] leaves through its test. *)
Lemma loop_sub_exit (f : nat) :
  forall a o, (a - o - _PI_) / _2_PI_ <= INR f -> loop_sub f a o - o <= _PI_.
Proof.
  induction f as [| f IH]; intros a o H.
  - simpl in *. now apply excess_nonpos.
  - cbn [loop_sub]. destruct (Rgt_dec (a - o) _PI_) as [Hgt | Hle]; [| lra].
    apply IH. rewrite S_INR in H.
    replace (a - _2_PI_ - o) with (a - o - _2_PI_) by ring.
    rewrite excess_step. lra.
Qed.

(** Allowing more iterations than needed changes nothing. *)
Lemma loop_sub_enough (f : nat) :
  forall g a o,
    (a - o - _PI_) / _2_PI_ <= INR f -> (a - o - _PI_) / _2_PI_ <= INR g ->
    loop_sub f a o = loop_sub g a o.
Proof.
  induction f as [| f IH]; intros g a o Hf Hg.
  - simpl in Hf. apply excess_nonpos in Hf.
    destruct g; cbn [loop_sub]; [reflexivity |].
    destruct (Rgt_dec (a - o) _PI_); [lra | reflexivity].
  - destruct g as [| g].
    + simpl in Hg. apply excess_nonpos in Hg. cbn [loop_sub].
      destruct (Rgt_dec (a - o) _PI_); [lra | reflexivity].
    + cbn [loop_sub]. destruct (Rgt_dec (a - o) _PI_); [| reflexivity].
      rewrite S_INR in Hf, Hg.
      apply IH; replace (a - _2_PI_ - o) with (a - o - _2_PI_) by ring;
        rewrite excess_step; lra.
Qed.

(** [while_sub] satisfies the equation of the first [while] loop. *)
Lemma while_sub_unfold (a o : R) :
  while_sub a o =
  if Rgt_dec (a - o) _PI_ then while_sub (a - _2_PI_) o else a.
Proof.
  unfold while_sub.
  destruct (Rgt_dec (a - o) _PI_) as [Hgt | Hle].
  - rewrite (loop_sub_enough (turns (a - o)) (S (turns (a - _2_PI_ - o)))).
    + cbn [loop_sub]. destruct (Rgt_dec (a - o) _PI_); [reflexivity | lra].
    + apply turns_enough.
    + rewrite S_INR. pose proof (turns_enough (a - _2_PI_ - o)) as H.
      replace (a - _2_PI_ - o) with (a - o - _2_PI_) in H at 1 by ring.
      rewrite excess_step in H. lra.
  - destruct (turns (a - o)); cbn [loop_sub]; [reflexivity |].
    destruct (Rgt_dec (a - o) _PI_); [lra | reflexivity].
Qed.

Lemma while_sub_exit (a o : R) : while_sub a o - o <= _PI_.
Proof. apply loop_sub_exit, turns_enough. Qed.

(** The result is the operand less a whole number of turns. *)
Lemma loop_sub_turns (f : nat) :
  forall a o, exists k : Z, loop_sub f a o = a - IZR k * _2_PI_.
Proof.
  induction f as [| f IH]; intros a o.
  - exists 0%Z. simpl. ring.
  - cbn [loop_sub]. destruct (Rgt_dec (a - o) _PI_).
    + destruct (IH (a - _2_PI_) o) as [k Hk]. exists (k + 1)%Z.
      rewrite Hk, plus_IZR. ring.
    + exists 0%Z. ring.
Qed.

(** The second loop is the mirror image of the first. *)
Lemma loop_add_mirror (f : nat) :
  forall a o, loop_add f a o = - loop_sub f (- a) (- o).
Proof.
  induction f as [| f IH]; intros a o; cbn [loop_add loop_sub]; [ring |].
  destruct (Rlt_dec (a - o) (- _PI_)), (Rgt_dec (- a - - o) _PI_);
    try lra.
  rewrite IH. f_equal. f_equal. ring.
Qed.

Lemma while_add_mirror (a o : R) : while_add a o = - while_sub (- a) (- o).
Proof.
  unfold while_add, while_sub. rewrite loop_add_mirror.
  replace (- a - - o) with (o - a) by ring. reflexivity.
Qed.

(** [while_add] satisfies the equation of the second [while] loop. *)
Lemma while_add_unfold (a o : R) :
  while_add a o =
  if Rlt_dec (a - o) (- _PI_) then while_add (a + _2_PI_) o else a.
Proof.
  rewrite while_add_mirror, while_sub_unfold.
  destruct (Rgt_dec (- a - - o) _PI_), (Rlt_dec (a - o) (- _PI_));
    try lra.
  rewrite while_add_mirror. f_equal. f_equal. ring.
Qed.

Lemma while_add_exit (a o : R) : - _PI_ <= while_add a o - o.
Proof.
  rewrite while_add_mirror.
  pose proof (while_sub_exit (- a) (- o)). lra.
Qed.

(** The second loop does not undo what the first one achieved. *)
Lemma loop_add_keeps (f : nat) :
  forall a o, a - o <= _PI_ -> loop_add f a o - o <= _PI_.
Proof.
  induction f as [| f IH]; intros a o H; cbn [loop_add]; [exact H |].
  destruct (Rlt_dec (a - o) (- _PI_)); [| exact H].
  apply IH. rewrite _2_PI_double. lra.
Qed.

Lemma loop_add_turns (f : nat) :
  forall a o, exists k : Z, loop_add f a o = a + IZR k * _2_PI_.
Proof.
  intros a o. rewrite loop_add_mirror.
  destruct (loop_sub_turns f (- a) (- o)) as [k Hk].
  exists k. rewrite Hk. ring.
Qed.

(** Both loops: the result differs from the heading by half a turn at
    most, and from the operand by whole turns. *)
Lemma faster_path_range (a o : R) :
  - _PI_ <= faster_path a o - o <= _PI_.
Proof.
  unfold faster_path. split; [apply while_add_exit |].
  apply loop_add_keeps, while_sub_exit.
Qed.

Lemma faster_path_turns (a o : R) :
  exists k : Z, faster_path a o = a + IZR k * _2_PI_.
Proof.
  unfold faster_path, while_add, while_sub.
  destruct (loop_sub_turns (turns (a - o)) a o) as [k1 H1].
  destruct (loop_add_turns (turns (o - loop_sub (turns (a - o)) a o))
              (loop_sub (turns (a - o)) a o) o) as [k2 H2].
  exists (k2 - k1)%Z. rewrite H2, H1, minus_IZR. ring.
Qed.

(** The scenario of the specification: heading 3 rad, bearing -3 rad; one
    turn is added, the robot turns through the short side. *)
Example faster_path_adds_one_turn : faster_path (- 3) 3 = - 3 + _2_PI_.
Proof.
  unfold faster_path.
  rewrite (while_sub_unfold (- 3) 3).
  destruct (Rgt_dec (- 3 - 3) _PI_) as [H | _];
    [unfold _PI_ in H; lra |].
  rewrite while_add_unfold.
  destruct (Rlt_dec (- 3 - 3) (- _PI_)) as [_ | H];
    [| unfold _PI_ in H; lra].
  rewrite while_add_unfold.
  destruct (Rlt_dec (- 3 + _2_PI_ - 3) (- _PI_)) as [H | _];
    [unfold _PI_, _2_PI_ in H; lra | reflexivity].
Qed.

End FasterPath.

(** * First checks of the embedding *)

Example wrap32_examples :
  wrap32 (2 ^ 32 - 1 + 1) = 0 /\ wrap32 (0 - 1) = 2 ^ 32 - 1.
Proof. split; reflexivity. Qed.

Example rd_examples :
  rd zeros 9 = Ok 0%R /\
  rd zeros 10 = Fault (IndexOutOfBounds 10) /\
  rd zeros (-1) = Fault (IndexOutOfBounds (-1)).
Proof. repeat split; reflexivity. Qed.

(** A fresh planner ticked once stays free and has disabled the servo. *)
Example update_fresh :
  exists s, TP.update env0 tp0 = Ok s /\
            TP.state s = TP.FREE /\ TP.calls s = [TP.Disable].
Proof. eexists. repeat split; reflexivity. Qed.

(** A linear order on a fresh planner: two ticks without arrival, then the
    arrival: the servo is enabled, given its set points, and the planner
    goes back to FREE at step 3. *)
Example linear_order_run :
  exists s,
    TP.ticks [env0; env0; env_arrived] (TP.goLinear env0 1%R tp0) = Ok s /\
    TP.state s = TP.FREE /\ TP.step s = 3 /\ TP.finished s = false.
Proof. eexists. repeat split; reflexivity. Qed.

(** Stall along X: the step goes 1, 2, 3 and the odometry is rebased. *)
Example stallX_run :
  exists s,
    TP.ticks [env0; env0] (TP.stallX env0 0 tp0) = Ok s /\
    TP.state s = TP.STALLX /\ TP.step s = 3 /\
    TP.calls s = [TP.Enable; TP.Enable; TP.SetXO 0%R 0%R].
Proof. eexists. repeat split; reflexivity. Qed.

(** The scheduler as constructed, one command waiting: nothing happens
    before the 200 ms mark, where the command is taken. *)
Example scheduler_first_calls :
  (exists m, MC.Compute env_clear 1%R mc_loaded = Ok m /\
             MC.Qorders m = [cmd_golin] /\ MC.localTime m = 5) /\
  (exists m, MC.Compute env_clear 1%R mc_due = Ok m /\
             MC.Qorders m = [] /\ MC.localTime m = 200 /\
             TP.state (MC.tp m) = TP.LINEAR /\ TP.step (MC.tp m) = 2).
Proof. split; eexists; repeat split; reflexivity. Qed.

(** * The constant [_PI_] lies below the number pi *)

Section PiBound.
Local Open Scope R_scope.

Lemma Q2R_qpow (q : Q) (k : nat) : Q2R (qpow q k) = Q2R q ^ k.
Proof.
  induction k as [| k IH]; simpl.
  - unfold Q2R; simpl; lra.
  - now rewrite Q2R_mult, IH.
Qed.

Lemma Q2R_inject_nat (k : nat) : Q2R (inject_Z (Z.of_nat k)) = INR k.
Proof. rewrite INR_IZR_INZ. unfold Q2R; simpl. lra. Qed.

Lemma Q2R_machin_term (k : nat) :
  Q2R (machin_term k) = tg_alt PI_2_3_7_tg k.
Proof.
  unfold machin_term, tg_alt, PI_2_3_7_tg, Ratan_seq.
  assert (Hnz : ~ (inject_Z (Z.of_nat (2 * k + 1)) == 0)%Q).
  { unfold Qeq; simpl. lia. }
  rewrite Q2R_mult, Q2R_plus, Q2R_mult, !Q2R_div, !Q2R_qpow, Q2R_inject_nat
    by exact Hnz.
  replace (Q2R (-1)) with (-1) by (unfold Q2R; simpl; lra).
  replace (Q2R 2) with 2 by (unfold Q2R; simpl; lra).
  replace (Q2R (1 # 3)) with (/ 3) by (unfold Q2R; simpl; lra).
  replace (Q2R (1 # 7)) with (/ 7) by (unfold Q2R; simpl; lra).
  reflexivity.
Qed.

Lemma Q2R_qsum (f : nat -> Q) (k : nat) :
  Q2R (qsum f k) = sum_f_R0 (fun i => Q2R (f i)) k.
Proof.
  induction k as [| k IH]; simpl; [reflexivity |].
  now rewrite Q2R_plus, IH.
Qed.

(** Twenty-two terms of the series already exceed a quarter of [_PI_]. *)
Lemma _PI_lt_PI : _PI_ < PI.
Proof.
  pose proof (PI_2_3_7_ineq 10) as [Hlow _].
  rewrite (sum_eq _ (fun i => Q2R (machin_term i))) in Hlow
    by (intros; symmetry; apply Q2R_machin_term).
  rewrite <- Q2R_qsum in Hlow.
  assert (Hq : (_PI_Q < 4 * qsum machin_term 21)%Q).
  { unfold Qlt. vm_compute. reflexivity. }
  apply Qlt_Rlt in Hq. rewrite Q2R_mult in Hq.
  replace (Q2R 4) with 4 in Hq by (unfold Q2R; simpl; lra).
  replace (Q2R _PI_Q) with _PI_ in Hq
    by (unfold Q2R, _PI_Q, _PI_; simpl; lra).
  change (S (2 * 10)) with 21%nat in Hlow.
  lra.
Qed.

End PiBound.

(** * The orders of the planner *)

Section Orders.
Local Open Scope R_scope.

(** ** [gotoXY] *)

(** C1. For every pose and every target (x, y), [gotoXY] stores as linear
    set point the cumulative linear position plus the Euclidean distance
    from the current position to the target, and as angular set point the
    bearing [atan2f (y - Ym) (x - Xm)] moved by a whole number of turns
    [_2_PI_]; the stored angle lies within half a turn of the heading: in
    [heading - _PI_, heading + _PI_] for the constant of the code, hence in
    (heading - pi, heading + pi] for the number pi. *)
Theorem C1_gotoXY_setpoints (e : TP.Env) (x y : R) (s : TP.t) :
  let s' := TP.gotoXY e x y s in
  TP.linearSetPoint s' = Lm e + distance (Xm e) (Ym e) x y /\
  (exists k : Z,
      TP.angularSetPoint s' = atan2f (y - Ym e) (x - Xm e) + IZR k * _2_PI_) /\
  heading e - _PI_ <= TP.angularSetPoint s' <= heading e + _PI_ /\
  heading e - PI < TP.angularSetPoint s' <= heading e + PI.
Proof.
  destruct s. cbn. unfold Xm, Ym, Lm, heading, distance, pow2.
  set (a := atan2f _ _). set (o := TP.r_O _).
  pose proof (faster_path_range a o) as Hr.
  pose proof _PI_lt_PI as Hpi.
  repeat split; try lra.
  apply faster_path_turns.
Qed.

(** The scenario of the specification: from the origin, [gotoXY 3 4] asks
    for 5 metres along the bearing [atan (4 / 3)]. *)
Example gotoXY_3_4 :
  TP.linearSetPoint (TP.gotoXY env0 3 4 tp0) = 5 /\
  TP.angularSetPoint (TP.gotoXY env0 3 4 tp0) = atan (4 / 3).
Proof.
  cbn. unfold pow2. split.
  - assert (H5 : sqrt (5 * 5) = 5) by (apply sqrt_square; lra).
    match goal with
    | |- _ + sqrt ?u = _ => replace u with (5 * 5) by lra
    end.
    lra.
  - replace (3 - 0 / 1000) with 3 by lra.
    replace (4 - 0 / 1000) with 4 by lra.
    assert (Ha : atan2f 4 3 = atan (4 / 3)).
    { unfold atan2f. destruct (Rlt_dec 0 3); [reflexivity | lra]. }
    rewrite Ha.
    pose proof (atan_bound (4 / 3)) as [Hl Hu].
    assert (Hp : 0 < atan (4 / 3)).
    { rewrite <- atan_0. apply atan_increasing. lra. }
    pose proof PI_4 as H4. pose proof _PI_pos as Hpos.
    assert (Hup : atan (4 / 3) <= _PI_).
    { unfold _PI_. lra. }
    unfold faster_path.
    rewrite (while_sub_unfold (atan (4 / 3)) 0).
    destruct (Rgt_dec (atan (4 / 3) - 0) _PI_); [lra |].
    rewrite while_add_unfold.
    destruct (Rlt_dec (atan (4 / 3) - 0) (- _PI_)); [lra | reflexivity].
Qed.

End Orders.

(** * Update ticks *)

(** Case analysis on a [switch (step)] with cases up to 7. *)
Ltac case_step s :=
  let E := fresh "Estep" in
  destruct (TP.step s)
    as [| [[[?|?|]|[?|?|]|]|[[?|?|]|[?|?|]|]|] | ?] eqn:E;
  cbn; rewrite ?E; cbn.

(** Inversion of a successful sequence of fallible steps. *)
Ltac unbind H :=
  unfold bind in H;
  repeat match type of H with
         | context [match ?r with Ok _ => _ | Fault _ => _ end] =>
             let E := fresh "E" in destruct r eqn:E; try discriminate H
         end.

Lemma rd_Ok (A : Z -> R) (i : Z) (v : R) :
  rd A i = Ok v -> 0 <= i < 10 /\ v = A i.
Proof.
  unfold rd. destruct ((0 <=? i) && (i <? 10)) eqn:E; [| discriminate].
  intros [= <-]. split; [lia | reflexivity].
Qed.

Lemma rd_in_range (A : Z -> R) (i : Z) : 0 <= i < 10 -> rd A i = Ok (A i).
Proof.
  intros H. unfold rd.
  replace ((0 <=? i) && (i <? 10)) with true; [reflexivity |].
  symmetry. apply andb_true_iff. lia.
Qed.

(** The accumulation loop writes [linearSetPoint] and nothing else. *)
Lemma segments_loop_frame (k : nat) :
  forall i s s',
    TP.segments_loop k i s = Ok s' ->
    exists l, s' = TP.set_linearSetPoint l s.
Proof.
  induction k as [| k IH]; intros i s s' H; cbn [TP.segments_loop] in H.
  - injection H as <-. exists (TP.linearSetPoint s). now destruct s.
  - unbind H. apply IH in H as [l ->]. exists l. now destruct s.
Qed.

(** [updateXYtoLA] needs its cursor inside the arrays, writes the three set
    points and nothing else, and leaves in [linearNextSetPoint] the linear
    position plus the distance to the way point under the cursor. *)
Lemma updateXYtoLA_frame (e : TP.Env) (c : Z) (s s' : TP.t) :
  TP.updateXYtoLA e c s = Ok s' ->
  0 <= c < 10 /\
  exists l a,
    s' = TP.set_linearSetPoint l
           (TP.set_linearNextSetPoint
              (Lm e + distance (Xm e) (Ym e) (TP.X s c) (TP.Y s c))%R
              (TP.set_angularSetPoint a s)).
Proof.
  unfold TP.updateXYtoLA. intros H. unbind H.
  apply rd_Ok in E as [Hc ->]. apply rd_Ok in E0 as [_ ->]. split; [exact Hc |].
  destruct s. cbn in H.
  match type of H with (if ?b then _ else _) = _ => destruct b end.
  - apply segments_loop_frame in H as [l ->]. eexists l, _. reflexivity.
  - injection H as <-. eexists _, _. reflexivity.
Qed.

Arguments TP.updateXYtoLA : simpl never.

(** Replaces a successful [updateXYtoLA] by the state it returns. *)
Ltac frame_updateXYtoLA :=
  repeat match goal with
         | E : TP.updateXYtoLA _ _ _ = Ok _ |- _ =>
             apply updateXYtoLA_frame in E as (? & ? & ? & ->)
         end.

(** What a tick of [calculateDrawPlan] may change. *)
Lemma calculateDrawPlan_frame (e : TP.Env) (s s' : TP.t) :
  TP.calculateDrawPlan e s = Ok s' ->
  TP.finished s' = TP.finished s /\ TP.status s' = TP.status s /\
  TP.calls s' = TP.calls s /\
  (TP.state s' = TP.state s \/ TP.state s' = TP.FREE).
Proof.
  unfold TP.calculateDrawPlan, TP.drawPlan_case2. intros H.
  case_step s; unbind H; frame_updateXYtoLA;
    repeat match type of H with
           | context [if ?b then _ else _] => destruct b
           end;
    try (injection H as <-); frame_updateXYtoLA;
    destruct s; cbn; auto.
Qed.

(** Runs a sub-protocol other than [calculateDrawPlan] on a state given
    field by field: [H] is the equation of the tick. *)
Ltac run_protocol s H :=
  destruct s; cbn in *; subst; injection H as <-;
  unfold TP.calculateGoLinear, TP.calculateGoAngular,
    TP.calculateLinearPlan, TP.calculateStallX, TP.calculateStallY,
    TP.calculateFree, TP.calculateStop, TP.calculateMove,
    TP.calculateKeepPosition, TP.calculateCurvePlan;
  cbn;
  repeat match goal with
         | |- context [match ?z with Z0 => _ | Zpos _ => _ | Zneg _ => _ end] =>
             is_var z;
             destruct z as [| [[[?|?|]|[?|?|]|]|[[?|?|]|[?|?|]|]|] | ?]; cbn
         end;
  repeat match goal with
         | |- context [if ?b then _ else _] => destruct b; cbn
         end.

(** An update tick sets [finished] from the mode it finds. *)
Lemma update_finished (e : TP.Env) (s s' : TP.t) :
  TP.update e s = Ok s' ->
  TP.finished s' = negb (TP.moving (TP.state s)).
Proof.
  unfold TP.update. intros H.
  destruct (TP.state s) eqn:Est; cbn [TP.moving TP.state_eqb negb andb] in H;
    try (replace (TP.state _) with TP.DRAWPLAN in H
          by (destruct s; cbn in *; congruence);
         apply calculateDrawPlan_frame in H as (-> & _);
         destruct s; reflexivity);
    run_protocol s H; reflexivity.
Qed.

(** The mode after a tick: the idle modes stay, a movement goes on or ends
    in [FREE]. *)
Lemma update_state (e : TP.Env) (s s' : TP.t) :
  TP.update e s = Ok s' ->
  TP.state s' = TP.state s \/
  (TP.moving (TP.state s) = true /\ TP.state s' = TP.FREE).
Proof.
  unfold TP.update. intros H.
  destruct (TP.state s) eqn:Est; cbn [TP.moving TP.state_eqb negb andb] in H;
    try (replace (TP.state _) with TP.DRAWPLAN in H
          by (destruct s; cbn in *; congruence);
         apply calculateDrawPlan_frame in H as (_ & _ & _ & [-> | ->]);
         destruct s; cbn in *; auto);
    run_protocol s H; auto.
Qed.

Lemma moving_idle (st : TP.state_t) : TP.moving st = false <-> idle st.
Proof.
  unfold idle. destruct st; cbn; split; intros H; auto;
    try discriminate; destruct H; discriminate.
Qed.

(** [Compute] is [update] behind a status flag. *)
Lemma Compute_update (e : TP.Env) (period : R) (s : TP.t) :
  TP.Compute e period s =
  TP.update e (TP.set_status (wrap16 (Z.lor (TP.status s) 1)) s).
Proof. reflexivity. Qed.


(** * The constructed planner and its first order *)

Section Construction.

Lemma update_FREE (e : TP.Env) (s : TP.t) :
  TP.state s = TP.FREE ->
  TP.update e s =
  Ok (TP.calculateFree
        (TP.set_finished true
           (TP.set_status
              (wrap16 (Z.land (TP.status s) (Z.lnot (Z.shiftl 1 8)))) s))).
Proof.
  intros H. unfold TP.update. destruct s; cbn in *; subst. reflexivity.
Qed.

(** Ticks alone leave a free planner free, with the step it had. *)
Lemma ticks_keep_step (l : list (TP.Env * TP.op)) :
  forall s,
    Forall (fun eo => TP.is_tick (snd eo) = true) l ->
    TP.state s = TP.FREE ->
    exists s', TP.run l s = Ok s' /\
               TP.step s' = TP.step s /\ TP.state s' = TP.FREE.
Proof.
  induction l as [| [e o] l IH]; intros s Hall Hfree.
  - exists s. auto.
  - inversion Hall as [| ? ? Ho Hl]; subst. cbn in Ho.
    assert (Hex : exists s1, TP.exec e o s = Ok s1 /\
                             TP.step s1 = TP.step s /\
                             TP.state s1 = TP.FREE).
    { destruct o; try discriminate Ho; cbn [TP.exec].
      - rewrite update_FREE by exact Hfree. eexists. split; [reflexivity |].
        destruct s; cbn in *. auto.
      - rewrite Compute_update, update_FREE
          by (destruct s; exact Hfree).
        eexists. split; [reflexivity |]. destruct s; cbn in *. auto. }
    destruct Hex as (s1 & E1 & Hstep & Hst).
    destruct (IH s1 Hl Hst) as (s' & Hrun & Hstep' & Hst').
    exists s'. cbn [TP.run]. rewrite E1. cbn [bind].
    repeat split; [exact Hrun | congruence | exact Hst'].
Qed.

(** Every order that is accepted leaves the step at 1. *)
Lemma order_sets_step (e : TP.Env) (o : TP.op) (s s' : TP.t) :
  TP.is_order o = true -> TP.exec e o s = Ok s' -> TP.step s' = 1.
Proof.
  intros Ho H. destruct o; try discriminate Ho; cbn [TP.exec] in H;
    try (injection H as <-; destruct s; reflexivity).
  unfold TP.pushXY in H. destruct (cnt <? 10); [| discriminate].
  unbind H. injection H as <-. destruct a; reflexivity.
Qed.

(** C10. Right after construction the mode is FREE, [isFinished] returns
    true, the status word is 0 and the step is 0 ([GetStep] returns 0); the
    step is still 0 after any number of ticks without an order, and it is
    1 after any order. *)
Theorem C10_constructed_state (X_raw Y_raw : Z -> R) :
  let s0 := TP.TrajectoryPlanning X_raw Y_raw in
  TP.state s0 = TP.FREE /\ TP.isFinished s0 = true /\
  TP.GetStatus s0 = 0 /\ TP.step s0 = 0 /\ TP.GetStep s0 = 0 /\
  (forall l, Forall (fun eo => TP.is_tick (snd eo) = true) l ->
             exists s', TP.run l s0 = Ok s' /\
                        TP.step s' = 0 /\ TP.GetStep s' = 0) /\
  (forall e o s s', TP.is_order o = true -> TP.exec e o s = Ok s' ->
                    TP.step s' = 1 /\ TP.GetStep s' = 1).
Proof.
  cbn zeta. repeat split; try reflexivity.
  - intros l Hl.
    destruct (ticks_keep_step l (TP.TrajectoryPlanning X_raw Y_raw) Hl eq_refl)
      as (s' & Hrun & Hstep & _).
    exists s'. cbn in Hstep. unfold TP.GetStep. rewrite Hstep. auto.
  - eapply order_sets_step; eassumption.
  - unfold TP.GetStep. erewrite order_sets_step by eassumption. reflexivity.
Qed.

(** Two ticks on the fresh planner, then [goLinear]. *)
Lemma C10_constructed_state_witness :
  (exists s', TP.run [(env0, TP.OpUpdate); (env0, TP.OpCompute 1%R)] tp0
              = Ok s' /\ TP.step s' = 0 /\ TP.GetStep s' = 0) /\
  TP.step (TP.goLinear env0 1%R tp0) = 1.
Proof.
  destruct (C10_constructed_state zeros zeros)
    as (_ & _ & _ & _ & _ & Hticks & Horder).
  split.
  - apply Hticks. repeat constructor.
  - apply (Horder env0 (TP.OpGoLinear 1%R) tp0 _ eq_refl eq_refl).
Defined.

End Construction.

(** * [goLinear] and the [finished] flag *)

Section GoLinear.

Lemma ticks_cons (e : TP.Env) (es : list TP.Env) (s : TP.t) :
  TP.ticks (e :: es) s = (s' <- TP.update e s ;; TP.ticks es s').
Proof. reflexivity. Qed.

(** One tick of a linear movement: [finished] is reset, and the mode
    becomes FREE only if the servo reports its arrival. *)
Lemma update_LINEAR (e : TP.Env) (s : TP.t) :
  TP.state s = TP.LINEAR ->
  exists s', TP.update e s = Ok s' /\ TP.finished s' = false /\
             (TP.state s' = TP.LINEAR \/
              (TP.state s' = TP.FREE /\ TP.isPositioningFinished e = true)).
Proof.
  intros H. unfold TP.update, TP.calculateGoLinear.
  destruct s; cbn in *; subst. eexists. split; [reflexivity |].
  match goal with
  | |- context [match ?z with Z0 => _ | Zpos _ => _ | Zneg _ => _ end] =>
      destruct z as [| [[[?|?|]|[?|?|]|]|[[?|?|]|[?|?|]|]|] | ?]; cbn; auto
  end.
  destruct (TP.isPositioningFinished e); cbn; auto.
Qed.

Lemma ticks_FREE (es : list TP.Env) :
  forall s, TP.state s = TP.FREE -> exists s', TP.ticks es s = Ok s'.
Proof.
  intros s H.
  destruct (ticks_keep_step (map (fun e => (e, TP.OpUpdate)) es) s)
    as (s' & Hrun & _); [| exact H | exists s'; exact Hrun].
  apply Forall_forall. intros [e o] Hin. apply in_map_iff in Hin.
  destruct Hin as (e' & [= <- <-] & _). reflexivity.
Qed.

(** A run of ticks of a linear movement always goes through, and ends with
    [finished] set only if an earlier tick of the run saw the arrival. *)
Lemma linear_run (es : list TP.Env) :
  forall s,
    TP.state s = TP.LINEAR ->
    exists s', TP.ticks es s = Ok s' /\
               (es <> [] -> TP.finished s' = true ->
                exists es1 ea es2,
                  es = es1 ++ ea :: es2 /\
                  TP.isPositioningFinished ea = true /\ es2 <> []).
Proof.
  induction es as [| e es IH]; intros s Hlin.
  - exists s. split; [reflexivity | congruence].
  - destruct (update_LINEAR e s Hlin) as (s1 & E1 & Hfin & Hst).
    rewrite ticks_cons, E1. cbn [bind].
    destruct es as [| e2 es].
    + exists s1. split; [reflexivity |]. intros _ Hf. cbn in Hf. congruence.
    + destruct Hst as [Hst | [Hst Harr]].
      * destruct (IH s1 Hst) as (s' & Hrun & Hlast).
        exists s'. split; [exact Hrun |]. intros _ Hf.
        destruct Hlast as (es1 & ea & es2 & Heq & Ha & Hne);
          [discriminate | exact Hf |].
        exists (e :: es1), ea, es2. rewrite Heq. auto.
      * destruct (ticks_FREE (e2 :: es) s1 Hst) as (s' & Hrun).
        exists s'. split; [exact Hrun |]. intros _ _.
        exists [], e, (e2 :: es). repeat split; [exact Harr | discriminate].
Qed.

(** C7, as amended. [goLinear d] stores the linear position plus [d], sets
    the mode LINEAR and the step 1, and leaves the [finished] flag as it
    was; the first update tick that follows resets the flag, and a run of
    update ticks ends with the flag set only after the servo has reported
    its arrival in an earlier tick of the run. *)
Theorem C7_goLinear_setpoint_and_flag (e : TP.Env) (d : R) (s : TP.t) :
  let s1 := TP.goLinear e d s in
  TP.linearSetPoint s1 = (TP.GetLinearPosition e + d)%R /\
  TP.state s1 = TP.LINEAR /\ TP.step s1 = 1 /\
  TP.isFinished s1 = TP.isFinished s /\
  (forall e1, exists s2, TP.update e1 s1 = Ok s2 /\ TP.isFinished s2 = false) /\
  (forall e1 es,
      exists s', TP.ticks (e1 :: es) s1 = Ok s' /\
                 (TP.isFinished s' = true ->
                  exists es1 ea es2,
                    e1 :: es = es1 ++ ea :: es2 /\
                    TP.isPositioningFinished ea = true /\ es2 <> [])).
Proof.
  assert (Hlin : TP.state (TP.goLinear e d s) = TP.LINEAR)
    by (destruct s; reflexivity).
  cbn zeta. repeat split; try (destruct s; reflexivity).
  - intros e1.
    destruct (update_LINEAR e1 (TP.goLinear e d s) Hlin)
      as (s2 & E & Hf & _).
    exists s2. auto.
  - intros e1 es.
    destruct (linear_run (e1 :: es) (TP.goLinear e d s) Hlin)
      as (s' & Hrun & Hlast).
    exists s'. split; [exact Hrun |]. intros Hf. apply Hlast; [discriminate |].
    exact Hf.
Qed.

(** The claim as first stated fails on the planner as constructed: the flag
    is still set right after [goLinear]. *)
Lemma C7_goLinear_counterexample : ~ goLinear_busy_at_once env0 1%R tp0.
Proof. intros [_ H]. discriminate H. Qed.

(** A linear order, then three ticks with the arrival seen in the second. *)
Lemma C7_goLinear_witness :
  exists s', TP.ticks [env0; env_arrived; env0] (TP.goLinear env0 1%R tp0)
             = Ok s' /\
             TP.isFinished s' = true /\
             exists es1 ea es2,
               [env0; env_arrived; env0] = es1 ++ ea :: es2 /\
               TP.isPositioningFinished ea = true /\ es2 <> [].
Proof.
  destruct (C7_goLinear_setpoint_and_flag env0 1%R tp0)
    as (_ & _ & _ & _ & _ & Hrun).
  destruct (Hrun env0 [env_arrived; env0]) as (s' & E & Hlast).
  exists s'. split; [exact E |].
  assert (Hf : TP.isFinished s' = true).
  { vm_compute in E. injection E as <-. reflexivity. }
  split; [exact Hf | exact (Hlast Hf)].
Defined.

End GoLinear.

(** * [pushXY] *)

Section PushXY.

(** The copy loop writes the two arrays and nothing else. *)
Lemma pushXY_loop_frame (k : nat) :
  forall i Xin Yin s s',
    TP.pushXY_loop k i Xin Yin s = Ok s' ->
    exists X' Y', s' = TP.set_Y Y' (TP.set_X X' s).
Proof.
  induction k as [| k IH]; intros i Xin Yin s s' H;
    cbn [TP.pushXY_loop] in H.
  - injection H as <-. exists (TP.X s), (TP.Y s). now destruct s.
  - unbind H. apply IH in H as (X' & Y' & ->).
    exists X', Y'. now destruct s.
Qed.

(** Inside the arrays the loop succeeds and copies [k] cells from [i] on. *)
Lemma pushXY_loop_copies (k : nat) :
  forall i Xin Yin s,
    0 <= i -> i + Z.of_nat k <= 10 ->
    exists X' Y',
      TP.pushXY_loop k i Xin Yin s = Ok (TP.set_Y Y' (TP.set_X X' s)) /\
      forall j,
        (i <= j < i + Z.of_nat k -> X' j = Xin j /\ Y' j = Yin j) /\
        (~ i <= j < i + Z.of_nat k -> X' j = TP.X s j /\ Y' j = TP.Y s j).
Proof.
  induction k as [| k IH]; intros i Xin Yin s Hi Hk.
  - exists (TP.X s), (TP.Y s). split; [now destruct s |].
    intros j. split; [lia | auto].
  - cbn [TP.pushXY_loop]. unfold wr.
    replace ((0 <=? i) && (i <? 10)) with true
      by (symmetry; apply andb_true_iff; lia).
    cbn [bind].
    destruct (IH (i + 1) Xin Yin
                (TP.set_Y (fun j => if j =? i then Yin i else TP.Y s j)
                   (TP.set_X (fun j => if j =? i then Xin i else TP.X s j) s)))
      as (X' & Y' & E & Hcopy); [lia | lia |].
    exists X', Y'. split.
    + rewrite E. now destruct s.
    + intros j. destruct (Hcopy j) as [Hin Hout]. split; intros Hj.
      * destruct (Z.eq_dec j i) as [-> | Hne].
        -- destruct Hout as [-> ->]; [lia |]. destruct s; cbn.
           now rewrite Z.eqb_refl.
        -- apply Hin. lia.
      * destruct Hout as [-> ->]; [lia |]. destruct s; cbn.
        replace (j =? i) with false by (symmetry; apply Z.eqb_neq; lia).
        auto.
Qed.

(** An order of fewer than ten way points is accepted. *)
Lemma pushXY_accepts (Xin Yin : Z -> R) (cnt : Z) (s : TP.t) :
  0 <= cnt < 10 ->
  exists s',
    TP.pushXY Xin Yin cnt s = Ok s' /\
    TP.XYn s' = cnt /\ TP.state s' = TP.DRAWPLAN /\ TP.step s' = 1 /\
    forall j,
      (0 <= j < cnt -> TP.X s' j = Xin j /\ TP.Y s' j = Yin j) /\
      (~ 0 <= j < cnt -> TP.X s' j = TP.X s j /\ TP.Y s' j = TP.Y s j).
Proof.
  intros H. unfold TP.pushXY.
  replace (cnt <? 10) with true by (symmetry; apply Z.ltb_lt; lia).
  destruct (pushXY_loop_copies (Z.to_nat cnt) 0 Xin Yin s)
    as (X' & Y' & E & Hcopy); [lia | lia |].
  rewrite E. cbn [bind]. eexists. split; [reflexivity |].
  rewrite Z2Nat.id in Hcopy by lia.
  destruct s; cbn in *. repeat split; apply Hcopy; assumption.
Qed.

(** C2, as amended. [pushXY] with more than ten way points fails its
    assertion [n < 10]: the call does not return and has written nothing.
    With fewer than ten way points the order is accepted: the way points
    are copied to the head of the buffer, the rest of the buffer is kept,
    [XYn] is the count, the mode is DRAWPLAN and the step is 1. *)
Theorem C2_pushXY_assertion (Xin Yin : Z -> R) (cnt : Z) (s : TP.t) :
  (10 < cnt -> TP.pushXY Xin Yin cnt s = Fault AssertionFailed) /\
  (0 <= cnt < 10 ->
   exists s',
     TP.pushXY Xin Yin cnt s = Ok s' /\
     TP.XYn s' = cnt /\ TP.state s' = TP.DRAWPLAN /\ TP.step s' = 1 /\
     forall j,
       (0 <= j < cnt -> TP.X s' j = Xin j /\ TP.Y s' j = Yin j) /\
       (~ 0 <= j < cnt -> TP.X s' j = TP.X s j /\ TP.Y s' j = TP.Y s j)).
Proof.
  split; [| apply pushXY_accepts].
  intros H. unfold TP.pushXY.
  replace (cnt <? 10) with false by (symmetry; apply Z.ltb_ge; lia).
  reflexivity.
Qed.

(** Eleven way points: the assertion fails, [pushXY] does not hand the
    planner back. *)
Lemma C2_pushXY_counterexample : ~ pushXY_rejects_quietly Xs Ys 11 tp0.
Proof. intros [H _]. specialize (H eq_refl). discriminate H. Qed.

(** Three way points are accepted; eleven are not. *)
Lemma C2_pushXY_witness :
  TP.pushXY Xs Ys 11 tp0 = Fault AssertionFailed /\
  exists s', TP.pushXY Xs Ys 3 tp0 = Ok s' /\ TP.XYn s' = 3 /\
             TP.state s' = TP.DRAWPLAN /\ TP.step s' = 1.
Proof.
  split.
  - apply (proj1 (C2_pushXY_assertion Xs Ys 11 tp0)). reflexivity.
  - destruct (proj2 (C2_pushXY_assertion Xs Ys 3 tp0)) as (s' & E & H);
      [lia |].
    exists s'. intuition.
Defined.

End PushXY.

(** * The [finished] flag *)

Section Finished.

Lemma Compute_finished (e : TP.Env) (period : R) (s s' : TP.t) :
  TP.Compute e period s = Ok s' ->
  TP.finished s' = negb (TP.moving (TP.state s)).
Proof.
  rewrite Compute_update. intros H. apply update_finished in H.
  rewrite H. now destruct s.
Qed.

Lemma Compute_state (e : TP.Env) (period : R) (s s' : TP.t) :
  TP.Compute e period s = Ok s' ->
  TP.state s' = TP.state s \/
  (TP.moving (TP.state s) = true /\ TP.state s' = TP.FREE).
Proof.
  rewrite Compute_update. intros H. apply update_state in H.
  destruct s; exact H.
Qed.

(** The orders do not write [finished]. *)
Lemma order_keeps_finished (e : TP.Env) (o : TP.op) (s s' : TP.t) :
  TP.is_order o = true -> TP.exec e o s = Ok s' ->
  TP.finished s' = TP.finished s.
Proof.
  intros Ho H. destruct o; try discriminate Ho; cbn [TP.exec] in H;
    try (injection H as <-; destruct s; reflexivity).
  unfold TP.pushXY in H. destruct (cnt <? 10); [| discriminate].
  unbind H. injection H as <-.
  apply pushXY_loop_frame in E as (X' & Y' & ->). now destruct s.
Qed.

(** C4, as amended. After an update tick, [finished] is true exactly when
    the mode found by the tick was FREE or STOP, and the mode left by the
    tick is then FREE or STOP too.  The orders leave [finished] as it was. *)
Theorem C4_finished_follows_tick :
  (forall e o s s',
      TP.is_tick o = true -> TP.exec e o s = Ok s' ->
      (TP.finished s' = true <-> idle (TP.state s)) /\
      (TP.finished s' = true -> idle (TP.state s'))) /\
  (forall e o s s',
      TP.is_order o = true -> TP.exec e o s = Ok s' ->
      TP.finished s' = TP.finished s).
Proof.
  split; [| apply order_keeps_finished].
  intros e o s s' Ho H.
  assert (Hf : TP.finished s' = negb (TP.moving (TP.state s))).
  { destruct o; try discriminate Ho; cbn [TP.exec] in H;
      [eapply update_finished | eapply Compute_finished]; eassumption. }
  assert (Hs : TP.state s' = TP.state s \/
               (TP.moving (TP.state s) = true /\ TP.state s' = TP.FREE)).
  { destruct o; try discriminate Ho; cbn [TP.exec] in H;
      [eapply update_state | eapply Compute_state]; eassumption. }
  assert (Hiff : TP.finished s' = true <-> idle (TP.state s)).
  { rewrite Hf, <- moving_idle. destruct (TP.moving (TP.state s)); cbn;
      split; congruence. }
  split; [exact Hiff |].
  intros Hfin. destruct Hs as [-> | [_ ->]]; [now apply Hiff | now left].
Qed.

(** On the planner as constructed, [goLinear] leaves a state where
    [finished] is true in the mode LINEAR. *)
Lemma C4_finished_counterexample :
  exists s, TP.run [(env0, TP.OpGoLinear 1%R)] tp0 = Ok s /\
            ~ finished_iff_idle s.
Proof.
  eexists. split; [reflexivity |].
  intros [H _]. destruct (H eq_refl); discriminate.
Qed.

(** A linear order, then a tick: the flag is kept by the order and reset
    by the tick. *)
Lemma C4_finished_witness :
  TP.finished (TP.goLinear env0 1%R tp0) = TP.finished tp0 /\
  exists s', TP.update env0 (TP.goLinear env0 1%R tp0) = Ok s' /\
             (TP.finished s' = true <->
              idle (TP.state (TP.goLinear env0 1%R tp0))).
Proof.
  destruct C4_finished_follows_tick as [Htick Horder]. split.
  - apply (Horder env0 (TP.OpGoLinear 1%R) tp0 _ eq_refl eq_refl).
  - eexists. split; [reflexivity |].
    apply (Htick env0 TP.OpUpdate (TP.goLinear env0 1%R tp0) _ eq_refl
             eq_refl).
Defined.

End Finished.

(** * Path following *)

Section DrawPlan.

Lemma wrap32_small (z : Z) : 0 <= z < 2 ^ 32 -> wrap32 z = z.
Proof. intros H. unfold wrap32. now apply Z.mod_small. Qed.

(** The index before 0, as [uint32_t] arithmetic computes it. *)
Lemma wrap32_before_0 : wrap32 (0 - 1) = 4294967295.
Proof. reflexivity. Qed.

(** With two way points or more, the accumulation loop entered at cursor 0
    reads [X[i - 1]] for [i = 0]: outside the array. *)
Lemma updateXYtoLA_cursor_0 (e : TP.Env) (s : TP.t) :
  2 <= TP.XYn s < 2 ^ 32 ->
  TP.updateXYtoLA e 0 s = Fault (IndexOutOfBounds (wrap32 (0 - 1))).
Proof.
  intros H. unfold TP.updateXYtoLA. destruct s; cbn in *.
  replace (2 <=? XYn) with true by (symmetry; apply Z.leb_le; lia).
  rewrite wrap32_small by lia.
  destruct (Z.to_nat (XYn - 1 - 0)) as [| k] eqn:Ek; [lia |].
  reflexivity.
Qed.

(** C9. A FollowPath order with two way points or more is either turned
    down by the assertion of [pushXY] (ten or more), or it is accepted and
    the first update tick stops in [updateXYtoLA] at cursor 0 on the read
    of [X[i - 1]] with [i = 0], an index outside the ten-element array. *)
Theorem C9_first_tick_reads_out_of_bounds
    (e : TP.Env) (Xin Yin : Z -> R) (cnt : Z) (s : TP.t) :
  2 <= cnt ->
  match TP.pushXY Xin Yin cnt s with
  | Ok s1 =>
      TP.state s1 = TP.DRAWPLAN /\ TP.step s1 = 1 /\
      TP.update e s1 = Fault (IndexOutOfBounds (wrap32 (0 - 1))) /\
      ~ 0 <= wrap32 (0 - 1) < 10
  | Fault f => f = AssertionFailed /\ 10 <= cnt
  end.
Proof.
  intros Hcnt. unfold TP.pushXY.
  destruct (cnt <? 10) eqn:Elt; [| split; [reflexivity | ]].
  2: { apply Z.ltb_ge in Elt. exact Elt. }
  apply Z.ltb_lt in Elt.
  destruct (pushXY_loop_copies (Z.to_nat cnt) 0 Xin Yin s)
    as (X' & Y' & E & _); [lia | lia |].
  rewrite E. cbn [bind].
  repeat split; try (destruct s; reflexivity).
  - unfold TP.update, TP.calculateDrawPlan. destruct s; cbn.
    rewrite updateXYtoLA_cursor_0; [reflexivity | cbn; lia].
  - rewrite wrap32_before_0. lia.
Qed.

(** Three way points: accepted, and the first tick reads out of bounds. *)
Lemma C9_first_tick_witness :
  exists s1, TP.pushXY Xs Ys 3 tp0 = Ok s1 /\
             TP.update env0 s1 = Fault (IndexOutOfBounds 4294967295).
Proof.
  pose proof (C9_first_tick_reads_out_of_bounds env0 Xs Ys 3 tp0) as H.
  destruct (TP.pushXY Xs Ys 3 tp0) as [s1 | f] eqn:E.
  - exists s1. split; [reflexivity |]. apply H. lia.
  - exfalso. assert (Hc : (2 <= 3)%Z) by lia.
    apply H in Hc. destruct Hc as [_ Hc]. lia.
Defined.

End DrawPlan.

(** * The set point of a path *)

Section PathSetPoint.
Local Open Scope R_scope.

Lemma path_length_ext (s1 s2 : TP.t) (k : nat) :
  TP.X s1 = TP.X s2 -> TP.Y s1 = TP.Y s2 ->
  forall i, path_length s1 k i = path_length s2 k i.
Proof.
  intros HX HY. induction k as [| k IH]; intros i; cbn; [reflexivity |].
  unfold segment. now rewrite HX, HY, IH.
Qed.

(** From way point [i >= 1] on, the accumulation loop adds the segments
    that END at way points [i], [i + 1], ...: those that start at
    [i - 1], [i], ... *)
Lemma segments_loop_sum (k : nat) :
  forall i s,
    (1 <= i)%Z -> (i + Z.of_nat k <= 10)%Z ->
    TP.segments_loop k i s =
    Ok (TP.set_linearSetPoint
          (TP.linearSetPoint s + path_length s k (i - 1)) s).
Proof.
  induction k as [| k IH]; intros i s Hi Hk.
  - cbn. destruct s; cbn. now rewrite Rplus_0_r.
  - cbn [TP.segments_loop].
    rewrite (wrap32_small (i - 1)), (wrap32_small (i + 1)) by lia.
    rewrite !rd_in_range by lia. cbn [bind].
    rewrite IH by lia.
    rewrite (path_length_ext _ s) by (destruct s; reflexivity).
    replace (i + 1 - 1)%Z with (i - 1 + 1)%Z by lia.
    cbn [path_length]. unfold segment, distance, pow2.
    replace (i - 1 + 1)%Z with i by lia.
    destruct s; cbn. f_equal. f_equal. ring.
Qed.

(** What [updateXYtoLA] stores at a cursor [c >= 1]: the linear position,
    the distance to way point [c], and the segments that start at way points
    [c - 1], ..., [XYn - 3]. *)
Lemma updateXYtoLA_linearSetPoint (e : TP.Env) (c : Z) (s : TP.t) :
  (1 <= c < 10)%Z -> (2 <= TP.XYn s <= 11)%Z ->
  exists s',
    TP.updateXYtoLA e c s = Ok s' /\
    TP.linearSetPoint s' =
    Lm e + distance (Xm e) (Ym e) (TP.X s c) (TP.Y s c)
    + path_length s (Z.to_nat (TP.XYn s - 1 - c)) (c - 1).
Proof.
  intros Hc Hn. unfold TP.updateXYtoLA.
  rewrite !rd_in_range by lia. cbn [bind]. cbv zeta.
  replace (2 <=? TP.XYn _)%Z with true
    by (symmetry; destruct s; cbn in *; apply Z.leb_le; lia).
  replace (TP.XYn _) with (TP.XYn s) by (destruct s; reflexivity).
  rewrite (wrap32_small (TP.XYn s - 1)) by lia.
  rewrite segments_loop_sum by lia.
  eexists. split; [reflexivity |].
  rewrite (path_length_ext _ s) by (destruct s; reflexivity).
  destruct s; cbn. reflexivity.
Qed.

Lemma distance_on_axis (a b : R) : a <= b -> distance a 0 b 0 = b - a.
Proof.
  intros H. unfold distance.
  replace ((b - a) ^ 2 + (0 - 0) ^ 2) with ((b - a) * (b - a)) by ring.
  apply sqrt_square. lra.
Qed.

(** The planner following (0,0), (1,0), (3,0), the cursor on way point 1. *)
Lemma path_sample :
  exists s, TP.pushXY Xs Ys 3 tp0 = Ok s /\
            (2 <= TP.XYn s <= 11)%Z /\ TP.XYn s = 3%Z /\
            TP.X s 0%Z = 0 /\ TP.X s 1%Z = 1 /\ TP.X s 2%Z = 3 /\
            TP.Y s 0%Z = 0 /\ TP.Y s 1%Z = 0 /\ TP.Y s 2%Z = 0.
Proof.
  destruct (pushXY_accepts Xs Ys 3 tp0)
    as (s & E & Hn & _ & _ & Hcopy); [lia |].
  exists s. split; [exact E |]. rewrite Hn.
  pose proof (proj1 (Hcopy 0%Z)) as H0.
  pose proof (proj1 (Hcopy 1%Z)) as H1.
  pose proof (proj1 (Hcopy 2%Z)) as H2.
  destruct H0 as [-> ->]; [lia |]. destruct H1 as [-> ->]; [lia |].
  destruct H2 as [-> ->]; [lia |].
  cbn. repeat split; lia.
Qed.

(** C5, the code at a failing input. Way points (0,0), (1,0), (3,0), the
    robot at the origin, the cursor on way point 1: the segment after the
    cursor, from (1,0) to (3,0), is 2 long and the set point asked for is
    0 + 1 + 2 = 3, but [updateXYtoLA] stores 0 + 1 + 1 = 2: it adds the
    segment before the cursor, from (0,0) to (1,0). *)
Theorem C5_updateXYtoLA_adds_previous_segment :
  exists s s',
    TP.pushXY Xs Ys 3 tp0 = Ok s /\
    TP.updateXYtoLA env0 1 s = Ok s' /\
    TP.linearSetPoint s' = 2 /\
    Lm env0 + distance (Xm env0) (Ym env0) (TP.X s 1) (TP.Y s 1)
    + path_length s (Z.to_nat (TP.XYn s - 1 - 1)) 1 = 3.
Proof.
  destruct path_sample
    as (s & E & Hn & Hn3 & X0 & X1 & X2 & Y0 & Y1 & Y2).
  destruct (updateXYtoLA_linearSetPoint env0 1 s) as (s' & E' & Hl);
    [lia | exact Hn |].
  exists s, s'. split; [exact E |]. split; [exact E' |].
  rewrite Hl, Hn3.
  change (Z.to_nat (3 - 1 - 1)) with 1%nat. change (1 - 1)%Z with 0%Z.
  cbn [path_length]. unfold segment.
  change (0 + 1)%Z with 1%Z. change (1 + 1)%Z with 2%Z.
  rewrite X0, X1, X2, Y0, Y1, Y2.
  unfold Lm, Xm, Ym. cbn [env0 robot0 TP.GetRobot TP.r_Xmm TP.r_Ymm TP.r_Lmm].
  replace (0 / 1000) with 0 by lra.
  rewrite !distance_on_axis by lra. split; lra.
Qed.

End PathSetPoint.

(** * The cursor of a path *)

Section Cursor.

(** The model's [abs] is the absolute value. *)
Lemma abs_Rabs (v : R) : abs v = Rabs v.
Proof.
  unfold abs, Rabs. destruct (Rlt_dec v 0), (Rcase_abs v); lra.
Qed.

(** [up v - 1] is the integer part of [v]. *)
Lemma floor_bounds (v : R) :
  (IZR (up v - 1) <= v < IZR (up v - 1) + 1)%R.
Proof. destruct (archimed v) as [H1 H2]. rewrite minus_IZR. lra. Qed.

(** Rounding to the nearest integer gives at most the even integer [k] as
    long as the real is at most [k + 1/2]. *)
Lemma nearest_even_le (v : R) (k : Z) :
  Z.even k = true ->
  nearest_even v <= k <-> (v <= IZR k + 1 / 2)%R.
Proof.
  intros Hk. unfold nearest_even. cbv zeta.
  pose proof (floor_bounds v) as Hf.
  set (f := up v - 1) in *.
  assert (Hle : f <= k <-> (IZR f <= IZR k)%R)
    by (split; [apply IZR_le | apply le_IZR]).
  assert (Hlt : f + 1 <= k <-> (IZR f + 1 <= IZR k)%R).
  { rewrite <- plus_IZR. split; [apply IZR_le | apply le_IZR]. }
  assert (Hint : f <= k <-> (IZR f < IZR k + 1)%R).
  { rewrite <- plus_IZR. split; intros H.
    - apply IZR_lt. lia.
    - apply lt_IZR in H. lia. }
  assert (Hne : forall z, Z.even z = false -> z <= k -> z + 1 <= k).
  { intros z Ez Hz. assert (z <> k) by congruence. lia. }
  destruct (Rlt_dec (v - IZR f) (1 / 2)) as [Hlow | Hnlow].
  - split; intros H; [apply Hle in H; lra | apply Hint; lra].
  - destruct (Rlt_dec (1 / 2) (v - IZR f)) as [Hhigh | Hnhigh].
    + split; intros H; [apply Hlt in H; lra |].
      assert (Hfk : f <= k) by (apply Hint; lra).
      destruct (Z.eq_dec f k) as [Heq | Hneq]; [| lia].
      exfalso. rewrite Heq in Hhigh. lra.
    + assert (Hmid : (v = IZR f + 1 / 2)%R) by lra.
      destruct (Z.even f) eqn:Ef.
      * split; intros H; [apply Hle in H; lra | apply Hle; lra].
      * split; intros H; [apply Hlt in H; lra |].
        apply Hne; [exact Ef | apply Hle; lra].
Qed.

(** The tolerance test on a real: it holds up to the middle of the two
    [float32_t] values around 0.1, 26843545 / 2^28, and for no real
    above. *)
Lemma tolerance_test (v : R) :
  (to_float32_t v <= 0.1)%R <-> (v <= 26843545 / 268435456)%R.
Proof.
  unfold to_float32_t.
  assert (Hk : nearest_even (v * 134217728) <= 13421772 <->
               (v * 134217728 <= IZR 13421772 + 1 / 2)%R)
    by (apply nearest_even_le; reflexivity).
  split; intros H.
  - assert (Hz : nearest_even (v * 134217728) <= 13421772).
    { assert (Hr : (IZR (nearest_even (v * 134217728)) < IZR 13421773)%R)
        by lra.
      apply lt_IZR in Hr. lia. }
    apply Hk in Hz. lra.
  - assert (Hz : nearest_even (v * 134217728) <= 13421772)
      by (apply Hk; lra).
    apply IZR_le in Hz. lra.
Qed.

(** One tenth itself is rounded to 0.1f, which is above the double 0.1. *)
Lemma tolerance_test_at_one_tenth : ~ (to_float32_t 0.1 <= 0.1)%R.
Proof. rewrite tolerance_test. lra. Qed.

(** Below two way points [updateXYtoLA] adds nothing to the distance to the
    way point under the cursor. *)
Lemma updateXYtoLA_no_segments (e : TP.Env) (c : Z) (s : TP.t) :
  TP.XYn s < 2 -> 0 <= c < 10 ->
  exists a,
    TP.updateXYtoLA e c s =
    Ok (TP.set_linearSetPoint
          (Lm e + distance (Xm e) (Ym e) (TP.X s c) (TP.Y s c))%R
          (TP.set_linearNextSetPoint
             (Lm e + distance (Xm e) (Ym e) (TP.X s c) (TP.Y s c))%R
             (TP.set_angularSetPoint a s))).
Proof.
  intros Hn Hc. unfold TP.updateXYtoLA.
  rewrite !rd_in_range by lia. cbn [bind]. cbv zeta.
  replace (2 <=? TP.XYn _) with false
    by (symmetry; destruct s; cbn in *; apply Z.leb_gt; lia).
  eexists. destruct s; reflexivity.
Qed.

(** A path of one way point whose first tick passes the tolerance test of
    [case 2]: the cursor moves on to cell 1 and the step to 3. *)
Lemma single_way_point_tick
    (e : TP.Env) (Xin Yin : Z -> R) (s : TP.t) :
  (to_float32_t
     (abs (Lm e + distance (Xm e) (Ym e) (Xin 0%Z) (Yin 0%Z)
           - TP.GetLinearPosition e)) <= 0.1)%R ->
  exists s1 s',
    TP.pushXY Xin Yin 1 s = Ok s1 /\
    TP.update e s1 = Ok s' /\
    TP.state s' = TP.DRAWPLAN /\ TP.step s' = 3 /\ TP.n s' = 1 /\
    TP.linearSetPoint s' =
      (Lm e + distance (Xm e) (Ym e) (TP.X s 1%Z) (TP.Y s 1%Z))%R.
Proof.
  intros Htol.
  destruct (pushXY_accepts Xin Yin 1 s)
    as (s1 & E1 & Hn & Hst & Hstep & Hcopy); [lia |].
  destruct (Hcopy 0) as [[HX0 HY0] _]; [lia |].
  destruct (Hcopy 1) as [_ [HX1 HY1]]; [lia |].
  rewrite <- HX0, <- HY0 in Htol. rewrite <- HX1, <- HY1.
  exists s1. cut (exists s',
                    TP.update e s1 = Ok s' /\
                    TP.state s' = TP.DRAWPLAN /\ TP.step s' = 3 /\
                    TP.n s' = 1 /\
                    TP.linearSetPoint s' =
                      (Lm e + distance (Xm e) (Ym e)
                                (TP.X s1 1%Z) (TP.Y s1 1%Z))%R).
  { intros (s' & H). exists s'. split; [exact E1 | exact H]. }
  clear E1 Hcopy HX0 HY0 HX1 HY1.
  destruct s1 as [w f st stp l ln a sm t0 sl sa el ea Xb Yb cnt cur cl].
  cbn in *. subst st stp cnt.
  unfold TP.update, TP.calculateDrawPlan, TP.drawPlan_case2. cbn.
  match goal with
  | |- context [TP.updateXYtoLA e ?c ?s0] =>
      destruct (updateXYtoLA_no_segments e c s0) as (a1 & Ea);
        [cbn; lia | lia |]; rewrite Ea; cbn
  end.
  match goal with
  | |- context [TP.updateXYtoLA e ?c ?s0] =>
      destruct (updateXYtoLA_no_segments e c s0) as (a2 & Eb);
        [cbn; lia | lia |]; rewrite Eb; cbn
  end.
  match goal with
  | |- context [Rle_dec ?u ?v] =>
      destruct (Rle_dec u v) as [_ | Hno]; [| exfalso; apply Hno; exact Htol]
  end.
  change (wrap32 0) with 0. change (wrap32 1) with 1. cbn.
  match goal with
  | |- context [TP.updateXYtoLA e ?c ?s0] =>
      destruct (updateXYtoLA_no_segments e c s0) as (a3 & Ec);
        [cbn; lia | cbn; lia |]; rewrite Ec; cbn
  end.
  eexists. repeat split; reflexivity.
Qed.



End Cursor.

(** * The scheduler *)

Arguments wrap32 : simpl never.
Arguments wrap16 : simpl never.
Arguments MC.due : simpl never.
Arguments TP.Compute : simpl never.

Section Scheduler.

Lemma tp_hint_ratio (period : R) : tp_hint period = (period * 40)%R.
Proof. unfold tp_hint, MC.TP_TASK_PERIOD_MS, MC.MC_TASK_PERIOD_MS. lra. Qed.

Lemma clocked_fields (m : MC.t) :
  MC.enable (clocked m) = MC.enable m /\
  MC.localTime (clocked m) = wrap32 (MC.localTime m + MC.MC_TASK_PERIOD_MS) /\
  MC.Qorders (clocked m) = MC.Qorders m /\
  MC.tp (clocked m) = MC.tp m /\
  MC.events (clocked m) = MC.events m.
Proof.
  unfold clocked, MC.refresh. destruct m as [w en sg lt q s ev]; cbn.
  destruct en, sg; cbn; destruct (TP.isFinished s); cbn;
    repeat split; reflexivity.
Qed.

Lemma sensed_fields (e : MC.Env) (m : MC.t) :
  MC.enable (sensed e m) = MC.enable m /\
  MC.localTime (sensed e m) = wrap32 (MC.localTime m + MC.MC_TASK_PERIOD_MS) /\
  MC.Qorders (sensed e m) = MC.Qorders m /\
  MC.tp (sensed e m) = (if MC.Detect e then TP.stop (MC.tp m) else MC.tp m) /\
  MC.events (sensed e m) =
    MC.events m ++ (if MC.Detect e then [MC.EvStop] else []).
Proof.
  destruct (clocked_fields m) as (He & Ht & Hq & Hs & Hev).
  unfold sensed, MC.Stop, MC.record.
  destruct (MC.Detect e); [| rewrite app_nil_r; repeat split; assumption].
  destruct (clocked m) as [w en sg lt q s ev]; cbn in *; subst.
  repeat split; reflexivity.
Qed.

(** The planner's flag is not written by [stop]. *)
Lemma sensed_finished (e : MC.Env) (m : MC.t) :
  TP.isFinished (MC.tp (sensed e m)) = TP.isFinished (MC.tp m).
Proof.
  destruct (sensed_fields e m) as (_ & _ & _ & -> & _).
  destruct (MC.Detect e); [| reflexivity]. now destruct (MC.tp m).
Qed.

(** On the 200 ms grid the position loop, of period 100 ms, is due too. *)
Lemma grid_200_100 (z : Z) : z mod 200 = 0 -> z mod 100 = 0.
Proof. intros H. Z.div_mod_to_equations. lia. Qed.

(** [Compute] on a tick of the planner's grid, the scheduler enabled. *)
Lemma Compute_on_grid (e : MC.Env) (period : R) (m : MC.t) :
  MC.enable m = true -> MC.tp_tick m ->
  MC.Compute e period m =
  (let m4 := MC.record (MC.EvTpCompute (tp_hint period))
               (MC.pull e (sensed e m)) in
   s <- TP.Compute (MC.tp_env e) (tp_hint period) (MC.tp m4) ;;
   Ok (MC.record (MC.EvPcCompute (pc_hint period)) (MC.set_tp s m4))).
Proof.
  intros Hen Htick. unfold MC.tp_tick in Htick.
  destruct (clocked_fields m) as (He & Ht & _).
  unfold MC.Compute. cbv zeta. fold (clocked m).
  rewrite He, Hen. cbn [negb].
  assert (Hdue : forall x p,
             MC.localTime x = MC.localTime (clocked m) ->
             p = 200 \/ p = 100 -> MC.due x p = true).
  { intros x p Hx Hp. unfold MC.due. rewrite Hx, Ht. apply Z.eqb_eq.
    destruct Hp as [-> | ->]; [exact Htick | now apply grid_200_100]. }
  rewrite (Hdue (clocked m)) by (auto; left; reflexivity).
  fold (sensed e m).
  assert (Hts : MC.localTime (sensed e m) = MC.localTime (clocked m)).
  { destruct (sensed_fields e m) as (_ & -> & _). now rewrite Ht. }
  rewrite (Hdue (sensed e m)) by (auto; left; reflexivity).
  fold (tp_hint period). fold (pc_hint period).
  destruct (TP.Compute _ _ _) as [s | f]; cbn [bind]; [| reflexivity].
  rewrite Hdue; [reflexivity | | right; reflexivity].
  rewrite <- Hts. unfold MC.pull, MC.record.
  destruct (sensed e m) as [w en sg lt q st ev]; cbn.
  destruct (TP.isFinished st); [destruct q |]; reflexivity.
Qed.

(** [Compute] off the grid, or disabled: the planner is left alone. *)
Lemma Compute_off_grid (e : MC.Env) (period : R) (m m' : MC.t) :
  MC.enable m = false \/ ~ MC.tp_tick m ->
  MC.Compute e period m = Ok m' ->
  MC.tp m' = MC.tp m /\ MC.enable m' = MC.enable m.
Proof.
  intros Hcase H. destruct (clocked_fields m) as (He & Ht & _ & Hs & _).
  unfold MC.Compute in H. cbv zeta in H. fold (clocked m) in H.
  rewrite He in H. destruct (MC.enable m) eqn:Hen; cbn [negb] in H.
  - destruct Hcase as [Hc | Hgrid]; [discriminate |].
    assert (Hdue : forall x,
               MC.localTime x = MC.localTime (clocked m) ->
               MC.due x 200 = false).
    { intros x Hx. unfold MC.due. rewrite Hx, Ht. apply Z.eqb_neq.
      exact Hgrid. }
    change MC.SENS_TASK_PERIOD_MS with 200 in H.
    change MC.TP_TASK_PERIOD_MS with 200 in H.
    rewrite (Hdue (clocked m)) in H by reflexivity.
    rewrite (Hdue (clocked m)) in H by reflexivity. cbn [bind] in H.
    match type of H with
    | Ok (if ?b then _ else _) = _ => destruct b
    end; injection H as <-; rewrite <- Hs, <- He;
      destruct (clocked m); auto.
  - injection H as <-. auto.
Qed.

(** ** The queue *)

Lemma pull_fields (e : MC.Env) (m : MC.t) :
  MC.Qorders (MC.pull e m) =
    (if TP.isFinished (MC.tp m) then tl (MC.Qorders m) else MC.Qorders m) /\
  MC.events (MC.pull e m) =
    MC.events m ++
    (if TP.isFinished (MC.tp m)
     then [MC.EvReceive (hd_error (MC.Qorders m))] else []) /\
  MC.tp (MC.pull e m) =
    (if TP.isFinished (MC.tp m)
     then match MC.Qorders m with
          | cmd :: _ => MC.dispatch e cmd (MC.tp m)
          | [] => MC.tp m
          end
     else MC.tp m).
Proof.
  unfold MC.pull, MC.record. destruct m as [w en sg lt q s ev]; cbn.
  destruct (TP.isFinished s); [destruct q |]; cbn;
    rewrite ?app_nil_r; repeat split; reflexivity.
Qed.

(** ** The planner under the scheduler *)

(** Outside DRAWPLAN a tick of the planner always returns. *)
Lemma TP_Compute_returns (e : TP.Env) (hint : R) (s : TP.t) :
  TP.state s <> TP.DRAWPLAN -> exists s', TP.Compute e hint s = Ok s'.
Proof.
  intros H. rewrite Compute_update. unfold TP.update.
  destruct s as [w f st]; cbn in *.
  destruct st; cbn; try (eexists; reflexivity). congruence.
Qed.

Lemma TP_Compute_STOP (e : TP.Env) (hint : R) (s : TP.t) :
  TP.state s = TP.STOP ->
  exists s', TP.Compute e hint s = Ok s' /\ TP.state s' = TP.STOP.
Proof.
  intros H. rewrite Compute_update. unfold TP.update.
  destruct s; cbn in *; subst. cbn. eexists. split; reflexivity.
Qed.

Lemma dispatch_not_DRAWPLAN (e : MC.Env) (cmd : MC.cmd_t) (s : TP.t) :
  TP.state s <> TP.DRAWPLAN -> TP.state (MC.dispatch e cmd s) <> TP.DRAWPLAN.
Proof.
  intros H. unfold MC.dispatch.
  destruct (MC.id cmd); try exact H; destruct s; cbn; discriminate.
Qed.

Lemma TP_Compute_coherent (e : TP.Env) (hint : R) (s s' : TP.t) :
  TP.Compute e hint s = Ok s' -> coherent s'.
Proof.
  intros H. unfold coherent. intros Hmov.
  rewrite (Compute_finished _ _ _ _ H).
  destruct (Compute_state _ _ _ _ H) as [Hst | [_ Hst]].
  - rewrite <- Hst, Hmov. reflexivity.
  - rewrite Hst in Hmov. discriminate.
Qed.

Lemma tp_tick_dec (m : MC.t) : {MC.tp_tick m} + {~ MC.tp_tick m}.
Proof. unfold MC.tp_tick. apply Z.eq_dec. Qed.

(** Every state the scheduler reaches has a coherent planner. *)
Lemma reachable_coherent (m : MC.t) : reachable m -> coherent (MC.tp m).
Proof.
  induction 1 as [Xr Yr | e period m m' Hr IH H | m Hr IH | m Hr IH
                 | m q Hr IH].
  - unfold coherent. intros Hmov. discriminate.
  - destruct (MC.enable m) eqn:Hen;
      [destruct (tp_tick_dec m) as [Htick | Hoff] |].
    + rewrite Compute_on_grid in H by assumption. cbv zeta in H.
      unbind H. injection H as <-.
      apply TP_Compute_coherent in E.
      unfold MC.record. destruct (MC.pull e (sensed e m)); exact E.
    + destruct (Compute_off_grid e period m m') as [-> _]; auto.
    + destruct (Compute_off_grid e period m m') as [-> _]; auto.
  - destruct m; exact IH.
  - destruct m; exact IH.
  - destruct m; exact IH.
Qed.

Lemma runs_reachable (l : list (MC.Env * R)) :
  forall m m', reachable m -> MC.runs l m = Ok m' -> reachable m'.
Proof.
  induction l as [| [e period] l IH]; intros m m' Hr H; cbn [MC.runs] in H.
  - injection H as <-. exact Hr.
  - unbind H. eapply IH; [| exact H]. eapply reach_Compute; eassumption.
Qed.

(** C3. From every state of the scheduler with the enable flag set and the
    planner reporting "not finished", whatever its mode: if the front
    telemeter detects an obstacle on a call of [Compute] that falls on the
    obstacle-check grid, then [Compute] returns, Stop has been issued to
    the planner during the call, no order has been taken from the queue,
    and the planner is left in the mode STOP. *)
Theorem C3_obstacle_forces_stop (e : MC.Env) (period : R) (m : MC.t) :
  MC.enable m = true ->
  MC.sens_tick m ->
  MC.Detect e = true ->
  TP.isFinished (MC.tp m) = false ->
  exists m',
    MC.Compute e period m = Ok m' /\
    TP.state (MC.tp m') = TP.STOP /\
    MC.Qorders m' = MC.Qorders m /\
    MC.events m' =
      MC.events m ++
      [MC.EvStop; MC.EvTpCompute (tp_hint period);
       MC.EvPcCompute (pc_hint period)].
Proof.
  intros Hen Htick Hdet Hbusy.
  rewrite Compute_on_grid by assumption. cbv zeta.
  destruct (pull_fields e (sensed e m)) as (Hq & Hev & Hs).
  destruct (sensed_fields e m) as (_ & _ & Hq' & Hs' & Hev').
  rewrite sensed_finished in Hq, Hev, Hs.
  rewrite Hbusy in Hq, Hev, Hs.
  rewrite Hdet in Hs', Hev'.
  destruct (TP_Compute_STOP (MC.tp_env e) (tp_hint period)
              (MC.tp (MC.record (MC.EvTpCompute (tp_hint period))
                        (MC.pull e (sensed e m)))))
    as (s' & E & Hstop).
  { unfold MC.record. destruct (MC.pull e (sensed e m)); cbn in *.
    rewrite Hs, Hs'. now destruct (MC.tp m). }
  rewrite E. cbn [bind]. eexists. split; [reflexivity |].
  unfold MC.record. destruct (MC.pull e (sensed e m)); cbn in *.
  rewrite Hev, Hev', Hq, Hq', app_nil_r, <- !app_assoc. auto.
Qed.

(** The planner in the mode LINEAR by an order that no tick has seen yet,
    a command waiting: Stop is issued, the planner, which still reports
    "finished", is given the waiting command in the same call, and the call
    leaves it in the mode LINEAR. *)
Lemma C3_obstacle_counterexample :
  ~ obstacle_forces_stop env_obstacle 1%R mc_fresh_order.
Proof.
  intros H.
  destruct H as (m' & E & Hst); try reflexivity.
  vm_compute in E. injection E as <-. discriminate Hst.
Qed.

(** One command, eighty calls of [Compute]: the order is taken at 200 ms
    and is under way at 395 ms; the obstacle seen at 400 ms stops it. *)
Lemma C3_obstacle_witness :
  exists m m',
    MC.runs (repeat (env_clear, 1%R) 79) mc_loaded = Ok m /\
    TP.state (MC.tp m) = TP.LINEAR /\
    MC.Compute env_obstacle 1%R m = Ok m' /\
    TP.state (MC.tp m') = TP.STOP.
Proof.
  destruct (MC.runs (repeat (env_clear, 1%R) 79) mc_loaded) as [m | f] eqn:E;
    [| vm_compute in E; discriminate E].
  assert (Hm := E). vm_compute in Hm. injection Hm as Hm.
  destruct (C3_obstacle_forces_stop env_obstacle 1%R m)
    as (m' & E' & Hstop & _);
    try reflexivity; try (rewrite <- Hm; reflexivity).
  exists m, m'. repeat split; try assumption.
  rewrite <- Hm. reflexivity.
Defined.

(** C8. On a call of [Compute] that falls on the trajectory grid, the
    scheduler enabled: when the call returns, the queue has lost its head
    if the planner reported [isFinished] and is unchanged otherwise (so at
    most one order is taken, none from an empty queue); the queue is
    inspected only if the planner reported [isFinished]; and the planner's
    [Compute] has been called, once, with the period scaled by 200 / 5.
    The call returns whenever the planner is not in the mode DRAWPLAN. *)
Theorem C8_trajectory_tick (e : MC.Env) (period : R) (m : MC.t) :
  MC.enable m = true ->
  MC.tp_tick m ->
  (TP.state (MC.tp m) <> TP.DRAWPLAN ->
   exists m', MC.Compute e period m = Ok m') /\
  (forall m',
      MC.Compute e period m = Ok m' ->
      MC.Qorders m' =
        (if TP.isFinished (MC.tp m)
         then tl (MC.Qorders m) else MC.Qorders m) /\
      MC.events m' =
        MC.events m ++
        (if MC.Detect e then [MC.EvStop] else []) ++
        (if TP.isFinished (MC.tp m)
         then [MC.EvReceive (hd_error (MC.Qorders m))] else []) ++
        [MC.EvTpCompute (period * 200 / 5)%R;
         MC.EvPcCompute (pc_hint period)] /\
      exists s_in,
        TP.Compute (MC.tp_env e) (period * 200 / 5)%R s_in = Ok (MC.tp m')).
Proof.
  intros Hen Htick.
  rewrite Compute_on_grid by assumption. cbv zeta.
  destruct (pull_fields e (sensed e m)) as (Hq & Hev & Hs).
  destruct (sensed_fields e m) as (_ & _ & Hq' & Hs' & Hev').
  rewrite sensed_finished in Hq, Hev, Hs.
  change (period * 200 / 5)%R with (tp_hint period).
  split.
  - intros Hmode.
    destruct (TP_Compute_returns (MC.tp_env e) (tp_hint period)
                (MC.tp (MC.record (MC.EvTpCompute (tp_hint period))
                          (MC.pull e (sensed e m)))))
      as (s' & E).
    { unfold MC.record. destruct (MC.pull e (sensed e m)); cbn in *.
      rewrite Hs, Hs'.
      assert (Hsens : TP.state (if MC.Detect e then TP.stop (MC.tp m)
                                else MC.tp m) <> TP.DRAWPLAN).
      { destruct (MC.Detect e); [| exact Hmode].
        destruct (MC.tp m); cbn; discriminate. }
      destruct (TP.isFinished (MC.tp m)); [| exact Hsens].
      destruct (MC.Qorders (sensed e m)); [exact Hsens |].
      now apply dispatch_not_DRAWPLAN. }
    rewrite E. cbn [bind]. eexists. reflexivity.
  - intros m' H. unbind H. injection H as <-.
    split; [| split].
    + unfold MC.record. destruct (MC.pull e (sensed e m)); cbn in *.
      now rewrite Hq, Hq'.
    + unfold MC.record. destruct (MC.pull e (sensed e m)); cbn in *.
      rewrite Hev, Hev', Hq', <- !app_assoc. reflexivity.
    + exists (MC.tp (MC.record (MC.EvTpCompute (tp_hint period))
                       (MC.pull e (sensed e m)))).
      rewrite E. f_equal. unfold MC.record.
      destruct (MC.pull e (sensed e m)); reflexivity.
Qed.

(** On the loaded scheduler at the 200 ms mark: the command is taken, the
    planner is ticked with the period times 40. *)
Lemma C8_trajectory_tick_witness :
  exists m',
    MC.Compute env_clear 1%R mc_due = Ok m' /\
    MC.Qorders m' = [] /\
    MC.events m' =
      [MC.EvReceive (Some cmd_golin); MC.EvTpCompute (1 * 200 / 5)%R;
       MC.EvPcCompute (pc_hint 1%R)].
Proof.
  destruct (C8_trajectory_tick env_clear 1%R mc_due eq_refl eq_refl)
    as [Hret Hpost].
  destruct Hret as (m' & E); [discriminate |].
  destruct (Hpost m' E) as (Hq & Hev & _).
  exists m'. repeat split; assumption.
Defined.

End Scheduler.

(** * Further properties of the planner *)

(** Case analysis on every [switch (step)] of the goal. *)
Ltac step_cases :=
  repeat match goal with
         | |- context [match ?z with Z0 => _ | Zpos _ => _ | Zneg _ => _ end] =>
             is_var z;
             destruct z as [| [[[?|?|]|[?|?|]|]|[[?|?|]|[?|?|]|]|] | ?]; cbn
         end.

Section Bearing.
Local Open Scope R_scope.

Lemma faster_path_near (a o : R) :
  - _PI_ <= a - o <= _PI_ -> faster_path a o = a.
Proof.
  intros [Hl Hu]. unfold faster_path.
  rewrite (while_sub_unfold a o).
  destruct (Rgt_dec (a - o) _PI_); [lra |].
  rewrite while_add_unfold.
  destruct (Rlt_dec (a - o) (- _PI_)); [lra | reflexivity].
Qed.

(** X1. When the bearing of the target is within half a turn [_PI_] of the
    heading, [gotoXY] stores the bearing itself: no turn is added or
    taken off. *)
Theorem X1_gotoXY_keeps_near_bearing (e : TP.Env) (x y : R) (s : TP.t) :
  - _PI_ <= atan2f (y - Ym e) (x - Xm e) - heading e <= _PI_ ->
  TP.angularSetPoint (TP.gotoXY e x y s) = atan2f (y - Ym e) (x - Xm e).
Proof.
  intros H. destruct s; cbn. apply faster_path_near. exact H.
Qed.

Lemma atan2f_axis (x : R) : 0 < x -> atan2f 0 x = 0.
Proof.
  intros H. unfold atan2f. destruct (Rlt_dec 0 x); [| lra].
  replace (0 / x) with 0 by (field; lra). apply atan_0.
Qed.

(** A target straight ahead of the robot at the origin. *)
Lemma X1_gotoXY_witness :
  TP.angularSetPoint (TP.gotoXY env0 1 0 tp0) = atan2f (0 - Ym env0) (1 - Xm env0).
Proof.
  apply X1_gotoXY_keeps_near_bearing.
  unfold Xm, Ym, heading. cbn.
  replace (0 - 0 / 1000) with 0 by lra. replace (1 - 0 / 1000) with 1 by lra.
  rewrite atan2f_axis by lra. unfold _PI_. lra.
Defined.

(** X2. Unwrapping is idempotent: an angle that has gone through the two
    loops goes through them again unchanged. *)
Theorem X2_faster_path_idempotent (a o : R) :
  faster_path (faster_path a o) o = faster_path a o.
Proof. apply faster_path_near, faster_path_range. Qed.

(** X3. [gotoXY] to the very position of the robot asks for no travel, and
    for the heading 0 moved by whole turns next to the current heading:
    the planner will rotate the robot although it is on the target. *)
Theorem X3_gotoXY_on_the_spot (e : TP.Env) (s : TP.t) :
  let s' := TP.gotoXY e (Xm e) (Ym e) s in
  TP.linearSetPoint s' = Lm e /\
  TP.angularSetPoint s' = faster_path 0 (heading e) /\
  TP.state s' = TP.LINEARPLAN.
Proof.
  destruct s; cbn. unfold Xm, Ym, Lm, heading, pow2.
  match goal with
  | |- context [sqrt ?u] => replace u with 0 by ring
  end.
  repeat match goal with
         | |- context [atan2f ?p ?q] =>
             progress (replace p with 0 by ring; replace q with 0 by ring)
         end.
  rewrite sqrt_0.
  assert (Ha : atan2f 0 0 = 0).
  { unfold atan2f. destruct (Rlt_dec 0 0); [lra | reflexivity]. }
  rewrite Ha. repeat split. ring.
Qed.

End Bearing.

Section Modes.

(** One tick in an idle mode. *)
Lemma update_idle (e : TP.Env) (s : TP.t) :
  idle (TP.state s) ->
  exists s', TP.update e s = Ok s' /\
             TP.state s' = TP.state s /\ TP.step s' = TP.step s /\
             TP.finished s' = true /\
             TP.calls s' = TP.calls s ++ [TP.Disable].
Proof.
  intros [H | H]; unfold TP.update; destruct s; cbn in *; subst; cbn;
    eexists; repeat split; reflexivity.
Qed.

(** A run of ticks in an idle mode. *)
Lemma idle_run (es : list TP.Env) (s : TP.t) :
  idle (TP.state s) ->
  exists s', TP.ticks es s = Ok s' /\
             TP.state s' = TP.state s /\ TP.step s' = TP.step s /\
             (es <> [] -> TP.isFinished s' = true) /\
             TP.calls s' = TP.calls s ++ repeat TP.Disable (length es).
Proof.
  revert s. induction es as [| e es IH]; intros s H.
  - exists s. cbn. rewrite app_nil_r. repeat split. congruence.
  - destruct (update_idle e s H) as (s1 & E1 & Hst & Hstep & Hfin & Hc).
    rewrite ticks_cons, E1. cbn [bind].
    destruct (IH s1) as (s' & E & Hst' & Hstep' & Hfin' & Hc');
      [rewrite Hst; exact H |].
    exists s'. repeat split; try congruence.
    + intros _. destruct es as [| e2 es]; [| apply Hfin'; discriminate].
      cbn in E. injection E as <-. exact Hfin.
    + rewrite Hc', Hc, <- app_assoc. reflexivity.
Qed.

(** X4. In the modes FREE and STOP every tick returns, keeps the mode and
    the step, sets [finished] and disables the servo once more: nothing but
    a new order takes the planner out of them. *)
Theorem X4_idle_modes_stay (es : list TP.Env) (s : TP.t) :
  idle (TP.state s) ->
  exists s', TP.ticks es s = Ok s' /\
             TP.state s' = TP.state s /\ TP.step s' = TP.step s /\
             (es <> [] -> TP.isFinished s' = true) /\
             TP.calls s' = TP.calls s ++ repeat TP.Disable (length es).
Proof. apply idle_run. Qed.

Lemma X4_idle_modes_witness :
  exists s', TP.ticks [env0; env_arrived] (TP.stop tp0) = Ok s' /\
             TP.state s' = TP.STOP /\ TP.isFinished s' = true /\
             TP.calls s' = [TP.Disable; TP.Disable].
Proof.
  destruct (X4_idle_modes_stay [env0; env_arrived] (TP.stop tp0))
    as (s' & E & Hst & _ & Hfin & Hc); [right; reflexivity |].
  exists s'. repeat split; try assumption. apply Hfin. discriminate.
Defined.

(** One tick in a mode without exit: the servo is enabled, and the only
    other call a tick can make is the rebasing of the odometry. *)
Lemma update_absorbing (e : TP.Env) (s : TP.t) :
  absorbing (TP.state s) ->
  exists s' new,
    TP.update e s = Ok s' /\ TP.state s' = TP.state s /\
    TP.finished s' = false /\
    TP.calls s' = TP.calls s ++ TP.Enable :: new /\
    (new = [] \/
     (TP.state s = TP.STALLX /\ new = [TP.SetXO 0%R 0%R]) \/
     (TP.state s = TP.STALLY /\ new = [TP.SetYO 0%R (_PI_ / 2)%R])).
Proof.
  intros [H | [H | [H | H]]];
    unfold TP.update, TP.calculateStallX, TP.calculateStallY,
      TP.calculateKeepPosition, TP.calculateCurvePlan, TP.calculateMove,
      TP.emit;
    destruct s; cbn in *; subst; cbn; step_cases;
    rewrite <- ?app_assoc; cbn;
    eexists; eexists; (split; [reflexivity |]); cbn; auto 10.
Qed.

(** X5. The modes KEEP, CURVEPLAN, STALLX and STALLY are never left by a
    tick: every run of ticks returns in the same mode with [finished]
    false, so that the scheduler never takes another order from its
    queue. *)
Theorem X5_modes_without_exit (es : list TP.Env) (s : TP.t) :
  absorbing (TP.state s) ->
  exists s', TP.ticks es s = Ok s' /\
             TP.state s' = TP.state s /\
             (es <> [] -> TP.isFinished s' = false).
Proof.
  revert s. induction es as [| e es IH]; intros s H.
  - exists s. repeat split. congruence.
  - destruct (update_absorbing e s H) as (s1 & new & E1 & Hst & Hfin & _).
    rewrite ticks_cons, E1. cbn [bind].
    destruct (IH s1) as (s' & E & Hst' & Hfin'); [rewrite Hst; exact H |].
    exists s'. repeat split; try congruence.
    intros _. destruct es as [| e2 es]; [| apply Hfin'; discriminate].
    cbn in E. injection E as <-. exact Hfin.
Qed.

Lemma X5_modes_without_exit_witness :
  exists s', TP.ticks [env0; env_arrived; env_arrived] (TP.stallX env0 0 tp0)
             = Ok s' /\
             TP.state s' = TP.STALLX /\ TP.isFinished s' = false.
Proof.
  destruct (X5_modes_without_exit [env0; env_arrived; env_arrived]
              (TP.stallX env0 0 tp0))
    as (s' & E & Hst & Hfin); [right; right; left; reflexivity |].
  exists s'. repeat split; try assumption. apply Hfin. discriminate.
Defined.

(** X6. During a stall sequence the servo is never given a set point:
    whatever the run of ticks, the calls made are [Enable] and the rebasing
    of the odometry ([SetXO 0 0], resp. [SetYO 0 (_PI_ / 2)]).  The rotation
    of [case 1] is never commanded, the step having left 1 before the
    second [switch] is reached. *)
Theorem X6_stall_never_commands_servo (es : list TP.Env) (s : TP.t) :
  TP.state s = TP.STALLX \/ TP.state s = TP.STALLY ->
  exists s' new,
    TP.ticks es s = Ok s' /\
    TP.calls s' = TP.calls s ++ new /\
    Forall (fun c => c = TP.Enable \/
                     (TP.state s = TP.STALLX /\ c = TP.SetXO 0%R 0%R) \/
                     (TP.state s = TP.STALLY /\ c = TP.SetYO 0%R (_PI_ / 2)%R))
           new.
Proof.
  revert s. induction es as [| e es IH]; intros s H.
  - exists s, []. rewrite app_nil_r. repeat split. constructor.
  - assert (Ha : absorbing (TP.state s)).
    { destruct H as [H | H]; rewrite H; unfold absorbing; auto. }
    destruct (update_absorbing e s Ha)
      as (s1 & new & E1 & Hst & _ & Hc & Hnew).
    rewrite ticks_cons, E1. cbn [bind].
    destruct (IH s1) as (s' & new' & E & Hc' & Hall);
      [rewrite Hst; exact H |].
    exists s', (TP.Enable :: new ++ new'). split; [exact E |]. split.
    + rewrite Hc', Hc, <- app_assoc. reflexivity.
    + constructor; [left; reflexivity |]. apply Forall_app. split.
      * destruct Hnew as [-> | [[Hx ->] | [Hy ->]]].
        -- constructor.
        -- constructor; [right; left; auto | constructor].
        -- constructor; [right; right; auto | constructor].
      * rewrite Hst in Hall. exact Hall.
Qed.

Lemma X6_stall_witness :
  exists s' new,
    TP.ticks [env0; env0; env0] (TP.stallY env0 0 tp0) = Ok s' /\
    TP.calls s' = new /\
    Forall (fun c => c = TP.Enable \/ c = TP.SetYO 0%R (_PI_ / 2)%R) new.
Proof.
  destruct (X6_stall_never_commands_servo [env0; env0; env0]
              (TP.stallY env0 0 tp0))
    as (s' & new & E & Hc & Hall); [right; reflexivity |].
  exists s', new. repeat split; try assumption.
  eapply Forall_impl; [| exact Hall].
  intros c [Hc1 | [[Hx _] | [_ Hc3]]]; auto. discriminate Hx.
Defined.

End Modes.

Section LinearPlan.

Lemma arrivals_cons (e : TP.Env) (es : list TP.Env) :
  arrivals (e :: es) =
  ((if TP.isPositioningFinished e then 1 else 0) + arrivals es)%nat.
Proof.
  unfold arrivals. cbn [filter]. now destruct (TP.isPositioningFinished e).
Qed.

(** One tick of a rotate-then-translate order: either the order goes on,
    one tick and at most one arrival closer to its end, or it ends, which
    takes the arrival at step 5. *)
Lemma update_LINEARPLAN (e : TP.Env) (s : TP.t) :
  TP.state s = TP.LINEARPLAN ->
  exists s',
    TP.update e s = Ok s' /\
    ((TP.state s' = TP.LINEARPLAN /\
      (ticks_left (TP.step s) <= S (ticks_left (TP.step s')))%nat /\
      (arrivals_left (TP.step s) <=
       (if TP.isPositioningFinished e then 1 else 0)
       + arrivals_left (TP.step s'))%nat /\
      (ticks_left (TP.step s) = 0%nat -> ticks_left (TP.step s') = 0%nat)) \/
     (TP.state s' = TP.FREE /\ TP.step s = 5 /\
      TP.isPositioningFinished e = true)).
Proof.
  intros H. unfold TP.update, TP.calculateLinearPlan.
  destruct s; cbn in *; subst; cbn. step_cases;
    destruct (TP.isPositioningFinished e) eqn:Ea; cbn;
    eexists; (split; [reflexivity |]); cbn; rewrite ?Ea;
    try (left; repeat split; lia);
    right; repeat split; reflexivity.
Qed.

Lemma linearplan_run (es : list TP.Env) :
  forall s,
    TP.state s = TP.LINEARPLAN ->
    exists s',
      TP.ticks es s = Ok s' /\
      (TP.state s' = TP.FREE ->
       (1 <= ticks_left (TP.step s))%nat /\
       (ticks_left (TP.step s) <= length es)%nat /\
       (arrivals_left (TP.step s) <= arrivals es)%nat).
Proof.
  induction es as [| e es IH]; intros s Hst.
  - exists s. split; [reflexivity |]. intros Hf. congruence.
  - destruct (update_LINEARPLAN e s Hst) as (s1 & E1 & Hcase).
    rewrite ticks_cons, E1. cbn [bind]. rewrite arrivals_cons.
    destruct Hcase as [(Hst1 & Ht & Ha & Hz) | (Hst1 & Hstep & Harr)].
    + destruct (IH s1 Hst1) as (s' & E & Hend).
      exists s'. split; [exact E |]. intros Hf.
      destruct (Hend Hf) as (H1 & H2 & H3). cbn [length].
      repeat split; lia.
    + destruct (idle_run es s1) as (s' & E & _);
        [left; exact Hst1 |].
      exists s'. split; [exact E |]. intros _.
      rewrite Hstep, Harr. cbn. repeat split; lia.
Qed.

(** X7. After [gotoXY] every run of update ticks returns, and the order is
    over (mode FREE) only after five ticks at least, the servo having
    reported its arrival in two of them at least: once for the rotation,
    once for the translation. *)
Theorem X7_gotoXY_needs_two_arrivals
    (e : TP.Env) (x y : R) (s : TP.t) (es : list TP.Env) :
  exists s',
    TP.ticks es (TP.gotoXY e x y s) = Ok s' /\
    (TP.state s' = TP.FREE ->
     (5 <= length es)%nat /\ (2 <= arrivals es)%nat).
Proof.
  destruct (linearplan_run es (TP.gotoXY e x y s)) as (s' & E & Hend);
    [destruct s; reflexivity |].
  exists s'. split; [exact E |]. intros Hf.
  destruct (Hend Hf) as (_ & H2 & H3).
  replace (TP.step (TP.gotoXY e x y s)) with 1 in *
    by (destruct s; reflexivity).
  cbn in H2, H3. split; assumption.
Qed.

(** The shortest run: arrival seen at the second and at the fifth tick. *)
Lemma X7_gotoXY_witness :
  exists s',
    TP.ticks [env0; env_arrived; env0; env0; env_arrived]
      (TP.gotoXY env0 1%R 0%R tp0) = Ok s' /\
    TP.state s' = TP.FREE /\
    (5 <= length [env0; env_arrived; env0; env0; env_arrived])%nat /\
    (2 <= arrivals [env0; env_arrived; env0; env0; env_arrived])%nat.
Proof.
  destruct (X7_gotoXY_needs_two_arrivals env0 1%R 0%R tp0
              [env0; env_arrived; env0; env0; env_arrived])
    as (s' & E & Hend).
  exists s'. split; [exact E |].
  assert (Hf : TP.state s' = TP.FREE).
  { assert (Hg : exists l a,
               TP.gotoXY env0 1%R 0%R tp0 =
               TP.set_step 1
                 (TP.set_state TP.LINEARPLAN
                    (TP.set_angularSetPoint a (TP.set_linearSetPoint l tp0))))
      by (eexists; eexists; reflexivity).
    destruct Hg as (l & a & Hg). rewrite Hg in E. clear Hg.
    vm_compute in E. injection E as <-. reflexivity. }
  split; [exact Hf | exact (Hend Hf)].
Defined.

End LinearPlan.

(** * The status words *)

Section StatusBits.

Lemma testbit_wrap16 (w i : Z) :
  0 <= i -> Z.testbit (wrap16 w) i = (i <? 16) && Z.testbit w i.
Proof.
  intros Hi. unfold wrap16. destruct (i <? 16) eqn:E; cbn [andb].
  - apply Z.mod_pow2_bits_low. apply Z.ltb_lt in E. exact E.
  - apply Z.mod_pow2_bits_high. apply Z.ltb_ge in E. lia.
Qed.

Lemma testbit_flag (b i : Z) :
  0 <= b -> Z.testbit (Z.shiftl 1 b) i = (i =? b).
Proof.
  intros Hb. rewrite Z.shiftl_1_l, Z.pow2_bits_eqb by exact Hb.
  apply Z.eqb_sym.
Qed.

(** [w | (1 << b)] on sixteen bits. *)
Lemma testbit_set (b w i : Z) :
  0 <= b < 16 -> 0 <= i ->
  Z.testbit (wrap16 (Z.lor w (Z.shiftl 1 b))) i =
  (i =? b) || ((i <? 16) && Z.testbit w i).
Proof.
  intros Hb Hi. rewrite testbit_wrap16, Z.lor_spec, testbit_flag by lia.
  destruct (i =? b) eqn:E; [| now rewrite orb_false_r].
  apply Z.eqb_eq in E. subst i.
  replace (b <? 16) with true by (symmetry; apply Z.ltb_lt; lia).
  now rewrite orb_true_r.
Qed.

(** [w & ~(1 << b)] on sixteen bits. *)
Lemma testbit_clear (b w i : Z) :
  0 <= b < 16 -> 0 <= i ->
  Z.testbit (wrap16 (Z.land w (Z.lnot (Z.shiftl 1 b)))) i =
  negb (i =? b) && ((i <? 16) && Z.testbit w i).
Proof.
  intros Hb Hi.
  rewrite testbit_wrap16, Z.land_spec, Z.lnot_spec, testbit_flag by lia.
  destruct (i =? b), (i <? 16), (Z.testbit w i); reflexivity.
Qed.

(** The tick writes bit 8 of the planner's status and no other bit. *)
Lemma update_status (e : TP.Env) (s s' : TP.t) :
  TP.update e s = Ok s' ->
  TP.status s' =
  if TP.moving (TP.state s)
  then wrap16 (Z.lor (TP.status s) (Z.shiftl 1 8))
  else wrap16 (Z.land (TP.status s) (Z.lnot (Z.shiftl 1 8))).
Proof.
  unfold TP.update. intros H.
  destruct (TP.state s) eqn:Est; cbn [TP.moving TP.state_eqb negb andb] in H;
    try (replace (TP.state _) with TP.DRAWPLAN in H
          by (destruct s; cbn in *; congruence);
         apply calculateDrawPlan_frame in H as (_ & -> & _);
         destruct s; reflexivity);
    run_protocol s H; reflexivity.
Qed.

(** X8. After an update tick, bit 8 of the planner's status word is set
    exactly when the planner does not report [finished] (the bit means
    "busy"), and the other bits of the sixteen are as they were. *)
Theorem X8_planner_status_bit_8 (e : TP.Env) (s s' : TP.t) (i : Z) :
  TP.update e s = Ok s' ->
  0 <= i ->
  Z.testbit (TP.GetStatus s') i =
  if i =? 8 then negb (TP.isFinished s')
  else (i <? 16) && Z.testbit (TP.GetStatus s) i.
Proof.
  intros H Hi. unfold TP.GetStatus, TP.isFinished.
  rewrite (update_status e s s' H), (update_finished e s s' H).
  destruct (TP.moving (TP.state s)); cbn [negb].
  - rewrite testbit_set by lia. destruct (i =? 8); reflexivity.
  - rewrite testbit_clear by lia. destruct (i =? 8); reflexivity.
Qed.

(** On a planner with all flags up, a tick of a linear order keeps bit 8
    and a tick of an idle planner clears it. *)
Lemma X8_planner_status_witness :
  (exists s', TP.update env0 (TP.goLinear env0 1%R tp0) = Ok s' /\
              Z.testbit (TP.GetStatus s') 8 = true) /\
  (exists s', TP.update env0 (TP.set_status 65535 tp0) = Ok s' /\
              Z.testbit (TP.GetStatus s') 8 = false /\
              Z.testbit (TP.GetStatus s') 9 = true).
Proof.
  split.
  - eexists. split; [reflexivity |].
    rewrite (X8_planner_status_bit_8 env0 (TP.goLinear env0 1%R tp0) _ 8
               eq_refl); [reflexivity | lia].
  - eexists. split; [reflexivity |]. split.
    + rewrite (X8_planner_status_bit_8 env0 (TP.set_status 65535 tp0) _ 8
                 eq_refl); [reflexivity | lia].
    + rewrite (X8_planner_status_bit_8 env0 (TP.set_status 65535 tp0) _ 9
                 eq_refl); [reflexivity | lia].
Defined.

End StatusBits.

(** * The step counter *)

Section StepBound.

Lemma calculateDrawPlan_step (e : TP.Env) (s s' : TP.t) :
  TP.calculateDrawPlan e s = Ok s' ->
  0 <= TP.step s <= 6 -> 0 <= TP.step s' <= 6.
Proof.
  unfold TP.calculateDrawPlan, TP.drawPlan_case2. intros H Hb.
  case_step s; unbind H; frame_updateXYtoLA;
    repeat match type of H with
           | context [if ?b then _ else _] => destruct b
           end;
    try (injection H as <-); frame_updateXYtoLA;
    destruct s; cbn in *; lia.
Qed.

Lemma update_step_bound (e : TP.Env) (s s' : TP.t) :
  TP.update e s = Ok s' ->
  0 <= TP.step s <= 6 -> 0 <= TP.step s' <= 6.
Proof.
  unfold TP.update. intros H Hb.
  destruct (TP.state s) eqn:Est; cbn [TP.moving TP.state_eqb negb andb] in H;
    try (replace (TP.state _) with TP.DRAWPLAN in H
          by (destruct s; cbn in *; congruence);
         apply calculateDrawPlan_step in H; destruct s; cbn in *; lia);
    run_protocol s H; lia.
Qed.

Lemma exec_step_bound (e : TP.Env) (o : TP.op) (s s' : TP.t) :
  TP.exec e o s = Ok s' ->
  0 <= TP.step s <= 6 -> 0 <= TP.step s' <= 6.
Proof.
  intros H Hb. destruct (TP.is_order o) eqn:Ho.
  - rewrite (order_sets_step e o s s' Ho H). lia.
  - destruct o; try discriminate Ho; cbn [TP.exec] in H.
    + eapply update_step_bound; eassumption.
    + rewrite Compute_update in H.
      eapply update_step_bound; [exact H |]. destruct s; exact Hb.
Qed.

(** X9. From the constructor on, through any sequence of orders and ticks
    that returns, the step stays between 0 and 6: [GetStep], which casts it
    to [uint32_t], returns it unchanged. *)
Theorem X9_step_within_0_6
    (X_raw Y_raw : Z -> R) (l : list (TP.Env * TP.op)) (s : TP.t) :
  TP.run l (TP.TrajectoryPlanning X_raw Y_raw) = Ok s ->
  0 <= TP.step s <= 6 /\ TP.GetStep s = TP.step s.
Proof.
  assert (Hgen : forall l s0 s1,
             0 <= TP.step s0 <= 6 -> TP.run l s0 = Ok s1 ->
             0 <= TP.step s1 <= 6).
  { clear. induction l as [| [e o] l IH]; intros s0 s1 Hb H;
      cbn [TP.run] in H.
    - injection H as <-. exact Hb.
    - unbind H. eapply IH; [| exact H].
      eapply exec_step_bound; eassumption. }
  intros H. assert (Hb : 0 <= TP.step s <= 6).
  { eapply Hgen; [| exact H]. cbn. lia. }
  split; [exact Hb |]. unfold TP.GetStep. apply wrap32_small. lia.
Qed.

(** A linear order run to its end: the step has reached 3. *)
Lemma X9_step_witness :
  exists s,
    TP.run [(env0, TP.OpGoLinear 1%R); (env0, TP.OpUpdate);
            (env_arrived, TP.OpUpdate)] tp0 = Ok s /\
    TP.step s = 3 /\ TP.GetStep s = 3.
Proof.
  eexists. split; [vm_compute; reflexivity |].
  split; [reflexivity |].
  match goal with
  | |- TP.GetStep ?s0 = _ =>
      destruct (X9_step_within_0_6 zeros zeros
                  [(env0, TP.OpGoLinear 1%R); (env0, TP.OpUpdate);
                   (env_arrived, TP.OpUpdate)] s0)
        as [_ ->]; [vm_compute; reflexivity | reflexivity]
  end.
Defined.

End StepBound.

(** * Paths with fewer than two way points, and the general set point *)

Section ShortPaths.

(** X10. With two way points or more and the cursor [c] past way point 0,
    [updateXYtoLA] returns and stores as linear set point the linear
    position, the distance to way point [c], and the lengths of the
    [XYn - 1 - c] segments that start at way points [c - 1], [c], ...: the
    segment that leads to the cursor is counted, the last segment of the
    path is not. *)
Theorem X10_updateXYtoLA_set_point (e : TP.Env) (c : Z) (s : TP.t) :
  1 <= c < 10 -> 2 <= TP.XYn s <= 11 ->
  exists s',
    TP.updateXYtoLA e c s = Ok s' /\
    TP.linearNextSetPoint s' =
      (Lm e + distance (Xm e) (Ym e) (TP.X s c) (TP.Y s c))%R /\
    TP.linearSetPoint s' =
      (TP.linearNextSetPoint s'
       + path_length s (Z.to_nat (TP.XYn s - 1 - c)) (c - 1))%R.
Proof.
  intros Hc Hn.
  destruct (updateXYtoLA_linearSetPoint e c s Hc Hn) as (s' & E & Hl).
  exists s'. split; [exact E |].
  destruct (updateXYtoLA_frame e c s s' E) as (_ & l & w & Hs').
  assert (Hnext : TP.linearNextSetPoint s' =
                  (Lm e + distance (Xm e) (Ym e) (TP.X s c) (TP.Y s c))%R).
  { rewrite Hs'. destruct s; reflexivity. }
  split; [exact Hnext |]. rewrite Hnext. exact Hl.
Qed.

(** On the sample path, cursor on way point 1. *)
Lemma X10_updateXYtoLA_witness :
  exists s',
    TP.updateXYtoLA env_wp1 1 tp_drawing = Ok s' /\
    TP.linearSetPoint s' =
      (TP.linearNextSetPoint s' + path_length tp_drawing 1 0)%R.
Proof.
  destruct (X10_updateXYtoLA_set_point env_wp1 1 tp_drawing)
    as (s' & E & _ & Hl); [lia | cbn; lia |].
  exists s'. split; [exact E | exact Hl].
Defined.

(** X11. A path of one way point: on the first tick, if the distance left
    to that way point is at most 0.099 (the source tests [<= 0.1] on a
    [float32_t], which 0.1 itself, rounded to 0.1f, does not pass), the
    cursor moves to cell 1 of the buffer, which the order has not written,
    and the planner goes on at step 3 towards whatever that cell held
    before the order. *)
Theorem X11_single_way_point_aims_at_stale_cell
    (e : TP.Env) (Xin Yin : Z -> R) (s : TP.t) :
  (Rabs (Lm e + distance (Xm e) (Ym e) (Xin 0%Z) (Yin 0%Z)
         - TP.GetLinearPosition e) <= 0.099)%R ->
  exists s1 s',
    TP.pushXY Xin Yin 1 s = Ok s1 /\
    TP.update e s1 = Ok s' /\
    TP.state s' = TP.DRAWPLAN /\ TP.step s' = 3 /\ TP.n s' = 1 /\
    TP.linearSetPoint s' =
      (Lm e + distance (Xm e) (Ym e) (TP.X s 1%Z) (TP.Y s 1%Z))%R.
Proof.
  intros Htol. apply single_way_point_tick.
  rewrite abs_Rabs. apply tolerance_test. lra.
Qed.

(** The robot at the origin, the single way point (0,0): the planner then
    aims at (1,0), way point 1 of the path it followed before. *)
Lemma X11_single_way_point_witness :
  exists s1 s',
    TP.pushXY zeros zeros 1 tp_drawing = Ok s1 /\
    TP.update env0 s1 = Ok s' /\ TP.n s' = 1 /\
    TP.linearSetPoint s' = (Lm env0 + distance (Xm env0) (Ym env0) 1 0)%R.
Proof.
  destruct (X11_single_way_point_aims_at_stale_cell env0 zeros zeros
              tp_drawing) as (s1 & s' & E1 & E & _ & _ & Hn & Hl).
  - unfold Lm, Xm, Ym, zeros. cbn.
    replace (0 / 1000)%R with 0%R by lra.
    rewrite distance_on_axis by lra.
    replace (0 + (0 - 0) - 0)%R with 0%R by lra. rewrite Rabs_R0. lra.
  - exists s1, s'. repeat split; assumption.
Defined.

(** One tick of an empty path that has not gone past step 2. *)
Lemma update_empty_path (e : TP.Env) (s s' : TP.t) :
  TP.state s = TP.DRAWPLAN -> TP.XYn s = 0 ->
  TP.step s = 1 \/ TP.step s = 2 ->
  TP.update e s = Ok s' ->
  TP.state s' = TP.DRAWPLAN /\ TP.XYn s' = 0 /\ TP.step s' = 2 /\
  TP.finished s' = false.
Proof.
  intros Hst Hn Hstep H. unfold TP.update in H. rewrite Hst in H.
  cbn [TP.moving TP.state_eqb negb andb] in H.
  replace (TP.state _) with TP.DRAWPLAN in H
    by (destruct s; cbn in *; congruence).
  unfold TP.calculateDrawPlan, TP.drawPlan_case2 in H.
  replace (TP.step _) with (TP.step s) in H by (destruct s; reflexivity).
  destruct Hstep as [Hs | Hs]; rewrite Hs in H; unbind H;
    frame_updateXYtoLA;
    (match type of H with
     | (if ?d then _ else _) = _ => destruct d
     end; [| injection H as <-; destruct s; cbn in *; auto]);
    destruct s; cbn in *; subst;
    (match type of H with
     | context [if ?b then _ else _] =>
         let Eb := fresh "Eb" in
         destruct b eqn:Eb;
           [exfalso; apply Z.leb_le in Eb; unfold wrap32 in Eb;
            Z.div_mod_to_equations; lia |]
     end);
    apply updateXYtoLA_frame in H as (_ & ? & ? & ->); cbn; auto.
Qed.

(** X12. An empty path ([pushXY] with no way point, which the assertion
    lets through) never completes: every run of ticks that returns leaves
    the planner in the mode DRAWPLAN, at step 2 once a tick has run, with
    [finished] false. *)
Theorem X12_empty_path_never_completes
    (Xin Yin : Z -> R) (s : TP.t) (es : list TP.Env) (s' : TP.t) :
  (s1 <- TP.pushXY Xin Yin 0 s ;; TP.ticks es s1) = Ok s' ->
  TP.state s' = TP.DRAWPLAN /\
  (es <> [] -> TP.step s' = 2 /\ TP.isFinished s' = false).
Proof.
  assert (Hgen : forall es s0 s2,
             TP.state s0 = TP.DRAWPLAN -> TP.XYn s0 = 0 ->
             TP.step s0 = 1 \/ TP.step s0 = 2 ->
             TP.ticks es s0 = Ok s2 ->
             TP.state s2 = TP.DRAWPLAN /\
             (es <> [] -> TP.step s2 = 2 /\ TP.finished s2 = false)).
  { clear. induction es as [| e es IH]; intros s0 s2 Hst Hn Hstep H.
    - injection H as <-. split; [exact Hst | congruence].
    - rewrite ticks_cons in H. unbind H.
      destruct (update_empty_path e s0 a Hst Hn Hstep E)
        as (Hst1 & Hn1 & Hstep1 & Hf1).
      destruct (IH a s2 Hst1 Hn1 (or_intror Hstep1) H) as (Hst2 & Hlast).
      split; [exact Hst2 |]. intros _.
      destruct es as [| e2 es]; [| apply Hlast; discriminate].
      injection H as <-. auto. }
  intros H. unbind H.
  destruct (pushXY_accepts Xin Yin 0 s) as (s1 & E1 & Hn & Hst & Hstep & _);
    [lia |].
  rewrite E1 in E. injection E as <-.
  apply (Hgen es s1 s' Hst Hn (or_introl Hstep) H).
Qed.

(** The robot away from the stale cell 0: two ticks, still at step 2. *)
Lemma X12_empty_path_witness :
  exists s',
    (s1 <- TP.pushXY zeros zeros 0 tp_drawing ;;
     TP.ticks [env0; env0] s1) = Ok s' /\
    TP.state s' = TP.DRAWPLAN /\ TP.step s' = 2.
Proof.
  destruct (pushXY_accepts zeros zeros 0 tp_drawing)
    as (s1 & E1 & Hn & Hst & Hstep & Hcopy); [lia |].
  rewrite E1. cbn [bind].
  assert (Hrun : exists s', TP.ticks [env0; env0] s1 = Ok s').
  { clear E1 Hcopy.
    destruct s1 as [w f st stp l ln a sm t0 sl sa el ea Xb Yb cnt cur cl].
    cbn in Hn, Hst, Hstep. subst st stp cnt.
    rewrite ticks_cons.
    unfold TP.update, TP.calculateDrawPlan, TP.drawPlan_case2. cbn.
    repeat (match goal with
            | |- context [TP.updateXYtoLA ?e0 ?c ?s0] =>
                destruct (updateXYtoLA_no_segments e0 c s0) as (? & Ea);
                  [cbn; lia | cbn; lia |];
                  rewrite Ea; clear Ea; cbn
            | |- context [Rle_dec ?u ?v] => destruct (Rle_dec u v); cbn
            | |- context [wrap32 1] => change (wrap32 1) with 1; cbn
            | |- context [wrap32 2] => change (wrap32 2) with 2; cbn
            | |- context [wrap32 (-1)] =>
                change (wrap32 (-1)) with 4294967295; cbn
            | |- context [TP.update _ _] =>
                unfold TP.update, TP.calculateDrawPlan,
                  TP.drawPlan_case2; cbn
            | |- context [TP.drawPlan_case2 _ _] =>
                unfold TP.drawPlan_case2; cbn
            end);
      eexists; reflexivity. }
  destruct Hrun as (s' & E). exists s'. split; [exact E |].
  assert (H : (s2 <- TP.pushXY zeros zeros 0 tp_drawing ;;
               TP.ticks [env0; env0] s2) = Ok s')
    by (rewrite E1; exact E).
  destruct (X12_empty_path_never_completes zeros zeros tp_drawing
              [env0; env0] s' H) as (Hs & Hlast).
  split; [exact Hs |]. apply Hlast. discriminate.
Defined.

End ShortPaths.

(** * Further properties of the scheduler *)

Arguments Z.shiftl : simpl never.
Arguments Z.lnot : simpl never.

Section Dispatch.

(** [Compute] when nothing is due for the planner: the scheduler disabled,
    or the call off the 200 ms grid. *)
Lemma Compute_idle (e : MC.Env) (period : R) (m : MC.t) :
  MC.enable m = false \/ ~ MC.tp_tick m ->
  MC.Compute e period m =
  Ok (if MC.enable m && (MC.localTime (clocked m) mod 100 =? 0)
      then MC.record (MC.EvPcCompute (pc_hint period)) (clocked m)
      else clocked m).
Proof.
  intros Hcase. destruct (clocked_fields m) as (He & Ht & _).
  unfold MC.Compute. cbv zeta. fold (clocked m).
  rewrite He. destruct (MC.enable m) eqn:Hen; cbn [negb andb];
    [| reflexivity].
  destruct Hcase as [Hc | Hgrid]; [discriminate |].
  assert (Hdue : MC.due (clocked m) 200 = false).
  { unfold MC.due. rewrite Ht. apply Z.eqb_neq. exact Hgrid. }
  change MC.SENS_TASK_PERIOD_MS with 200.
  change MC.TP_TASK_PERIOD_MS with 200.
  rewrite Hdue, Hdue. cbn [bind]. reflexivity.
Qed.

(** The status word after [Compute] is the refreshed one. *)
Lemma Compute_status (e : MC.Env) (period : R) (m m' : MC.t) :
  MC.Compute e period m = Ok m' -> MC.status m' = MC.status (MC.refresh m).
Proof.
  intros H.
  assert (Hc : MC.status (clocked m) = MC.status (MC.refresh m))
    by (unfold clocked; destruct (MC.refresh m); reflexivity).
  destruct (MC.enable m) eqn:Hen;
    [destruct (tp_tick_dec m) as [Htick | Hoff] |].
  - rewrite Compute_on_grid in H by assumption. cbv zeta in H.
    unbind H. injection H as <-. rewrite <- Hc.
    unfold sensed, MC.pull, MC.record, MC.Stop.
    destruct (MC.Detect e); destruct (clocked m) as [w en sg lt q st ev];
      cbn; destruct (TP.isFinished _); try destruct q; reflexivity.
  - rewrite Compute_idle in H by auto. injection H as <-. rewrite <- Hc.
    destruct (_ && _); [| reflexivity].
    unfold MC.record. destruct (clocked m); reflexivity.
  - rewrite Compute_idle in H by auto. injection H as <-. rewrite <- Hc.
    rewrite Hen. reflexivity.
Qed.

(** The three flags written by the status refresh. *)
Lemma refresh_bits (m : MC.t) (i : Z) :
  0 <= i ->
  Z.testbit (MC.status (MC.refresh m)) i =
  if i =? 0 then MC.enable m
  else if i =? 1 then MC.safeguard m
  else if i =? 8 then TP.isFinished (MC.tp m)
  else (i <? 16) && Z.testbit (MC.status m) i.
Proof.
  intros Hi. unfold MC.refresh, MC.set_bit, MC.clear_bit.
  destruct m as [w en sg lt q st ev]; cbn.
  destruct en, sg; cbn; destruct (TP.isFinished st); cbn;
    repeat first [rewrite testbit_set by lia | rewrite testbit_clear by lia];
    (destruct (Z.eqb_spec i 0) as [-> | N0]; [reflexivity |]);
    (destruct (Z.eqb_spec i 1) as [-> | N1]; [reflexivity |]);
    (destruct (Z.eqb_spec i 8) as [-> | N8]; [reflexivity |]);
    cbn; destruct (i <? 16), (Z.testbit w i); reflexivity.
Qed.

(** The bits of the status word after [Compute]. *)
Lemma Compute_status_bits (e : MC.Env) (period : R) (m m' : MC.t) (i : Z) :
  MC.Compute e period m = Ok m' ->
  0 <= i ->
  Z.testbit (MC.status m') i =
  if i =? 0 then MC.enable m
  else if i =? 1 then MC.safeguard m
  else if i =? 8 then TP.isFinished (MC.tp m)
  else (i <? 16) && Z.testbit (MC.status m) i.
Proof.
  intros H Hi. rewrite (Compute_status e period m m' H).
  apply refresh_bits. exact Hi.
Qed.

(** X13. After every call of the scheduler's [Compute] that returns, bit 0
    of its status word is the enable flag, bit 1 the safeguard flag and
    bit 8 the planner's [isFinished] as it was when the call began (before
    the planner was ticked); the other bits of the sixteen are kept. *)
Theorem X13_scheduler_status_bits
    (e : MC.Env) (period : R) (m m' : MC.t) (i : Z) :
  MC.Compute e period m = Ok m' ->
  0 <= i ->
  Z.testbit (MC.status m') i =
  if i =? 0 then MC.enable m
  else if i =? 1 then MC.safeguard m
  else if i =? 8 then TP.isFinished (MC.tp m)
  else (i <? 16) && Z.testbit (MC.status m) i.
Proof.
  apply Compute_status_bits.
Qed.

(** The call that takes the waiting command: the planner is busy when the
    call returns, but bit 8 still says "finished". *)
Lemma X13_scheduler_status_witness :
  exists m',
    MC.Compute env_clear 1%R mc_due = Ok m' /\
    Z.testbit (MC.status m') 8 = true /\
    TP.state (MC.tp m') = TP.LINEAR.
Proof.
  destruct (MC.Compute env_clear 1%R mc_due) as [m' | f] eqn:E;
    [| vm_compute in E; discriminate E].
  exists m'. split; [reflexivity |]. split.
  - rewrite (X13_scheduler_status_bits env_clear 1%R mc_due m' 8 E);
      [reflexivity | lia].
  - vm_compute in E. injection E as <-. reflexivity.
Defined.

(** X14. While the scheduler is disabled, [Compute] returns at once: the
    clock advances by 5 ms and the status is refreshed, but the telemeter
    is not looked at, no order is taken, neither the planner nor the
    position loop is called. *)
Theorem X14_disabled_scheduler_dispatches_nothing
    (e : MC.Env) (period : R) (m : MC.t) :
  MC.enable m = false ->
  exists m',
    MC.Compute e period m = Ok m' /\
    MC.tp m' = MC.tp m /\ MC.Qorders m' = MC.Qorders m /\
    MC.events m' = MC.events m /\ MC.enable m' = false /\
    MC.localTime m' = wrap32 (MC.localTime m + 5) /\
    Z.testbit (MC.status m') 0 = false.
Proof.
  intros Hen. rewrite Compute_idle by auto. rewrite Hen. cbn [andb].
  destruct (clocked_fields m) as (He & Ht & Hq & Hs & Hev).
  eexists. split; [reflexivity |].
  repeat split; try assumption; try congruence.
  assert (Hst : MC.status (clocked m) = MC.status (MC.refresh m))
    by (unfold clocked; destruct (MC.refresh m); reflexivity).
  rewrite Hst, refresh_bits by lia. exact Hen.
Qed.

Lemma X14_disabled_witness :
  exists m',
    MC.Compute env_obstacle 1%R (MC.Disable mc_due) = Ok m' /\
    MC.Qorders m' = [cmd_golin] /\ MC.localTime m' = 200.
Proof.
  destruct (X14_disabled_scheduler_dispatches_nothing env_obstacle 1%R
              (MC.Disable mc_due) eq_refl)
    as (m' & E & _ & Hq & _ & _ & Ht & _).
  exists m'. repeat split; assumption.
Defined.

(** X15. Between two marks of the 200 ms grid the enabled scheduler leaves
    the planner and the queue alone, whatever the telemeter reports: an
    obstacle is acted upon at the next mark only.  The position loop is
    called on the 100 ms marks. *)
Theorem X15_off_grid_call (e : MC.Env) (period : R) (m : MC.t) :
  MC.enable m = true ->
  ~ MC.tp_tick m ->
  exists m',
    MC.Compute e period m = Ok m' /\
    MC.tp m' = MC.tp m /\ MC.Qorders m' = MC.Qorders m /\
    MC.events m' =
      MC.events m ++
      (if wrap32 (MC.localTime m + 5) mod 100 =? 0
       then [MC.EvPcCompute (pc_hint period)] else []).
Proof.
  intros Hen Hoff. rewrite Compute_idle by auto. rewrite Hen. cbn [andb].
  destruct (clocked_fields m) as (He & Ht & Hq & Hs & Hev).
  rewrite Ht. change MC.MC_TASK_PERIOD_MS with 5.
  eexists. split; [reflexivity |].
  destruct (_ =? 0).
  - unfold MC.record. destruct (clocked m); cbn in *. subst. auto.
  - rewrite app_nil_r. auto.
Qed.

Lemma X15_off_grid_witness :
  exists m',
    MC.Compute env_obstacle 1%R mc_loaded = Ok m' /\
    MC.tp m' = MC.tp mc_loaded /\ MC.events m' = [].
Proof.
  destruct (X15_off_grid_call env_obstacle 1%R mc_loaded eq_refl)
    as (m' & E & Hs & _ & Hev); [discriminate |].
  exists m'. repeat split; assumption.
Defined.

End Dispatch.

Section Orders2.

Lemma record_tp (ev : MC.event) (m : MC.t) :
  MC.tp (MC.record ev m) = MC.tp m /\
  MC.Qorders (MC.record ev m) = MC.Qorders m /\
  MC.events (MC.record ev m) = MC.events m ++ [ev].
Proof. unfold MC.record. destruct m; cbn. auto. Qed.

Lemma scheduled_not_DRAWPLAN (st : TP.state_t) :
  scheduled st -> st <> TP.DRAWPLAN.
Proof. intros [H | [H | [H | [H | H]]]]; rewrite H; discriminate. Qed.

(** The orders the scheduler can issue lead to scheduled modes only. *)
Lemma pulled_scheduled (e : MC.Env) (ev : MC.event) (m : MC.t) :
  scheduled (TP.state (MC.tp m)) ->
  scheduled (TP.state (MC.tp (MC.record ev (MC.pull e (sensed e m))))).
Proof.
  intros H. destruct (record_tp ev (MC.pull e (sensed e m))) as (-> & _).
  destruct (pull_fields e (sensed e m)) as (_ & _ & ->).
  destruct (sensed_fields e m) as (_ & _ & _ & Hs & _).
  assert (Hsens : scheduled (TP.state (MC.tp (sensed e m)))).
  { rewrite Hs. destruct (MC.Detect e); [| exact H].
    destruct (MC.tp m); cbn. unfold scheduled. auto 10. }
  destruct (TP.isFinished _); [| exact Hsens].
  destruct (MC.Qorders (sensed e m)) as [| cmd q]; [exact Hsens |].
  unfold MC.dispatch. destruct (MC.id cmd); try exact Hsens;
    destruct (MC.tp (sensed e m)); cbn; unfold scheduled; auto 10.
Qed.

Lemma reachable_scheduled (m : MC.t) :
  reachable m -> scheduled (TP.state (MC.tp m)).
Proof.
  induction 1 as [Xr Yr | e period m m' Hr IH H | m Hr IH | m Hr IH
                 | m q Hr IH]; try (destruct m; exact IH).
  - left. reflexivity.
  - destruct (MC.enable m) eqn:Hen;
      [destruct (tp_tick_dec m) as [Htick | Hoff] |].
    + rewrite Compute_on_grid in H by assumption. cbv zeta in H.
      unbind H. injection H as <-.
      destruct (record_tp (MC.EvPcCompute (pc_hint period))
                  (MC.set_tp a (MC.record (MC.EvTpCompute (tp_hint period))
                                  (MC.pull e (sensed e m))))) as (-> & _).
      replace (MC.tp (MC.set_tp a _)) with a
        by (destruct (MC.record _ _); reflexivity).
      pose proof (pulled_scheduled e (MC.EvTpCompute (tp_hint period)) m IH)
        as Hin.
      destruct (Compute_state _ _ _ _ E) as [-> | [_ ->]];
        [exact Hin | left; reflexivity].
    + destruct (Compute_off_grid e period m m') as [-> _]; auto.
    + destruct (Compute_off_grid e period m m') as [-> _]; auto.
Qed.

(** X16. The scheduler only ever puts the planner in the modes FREE,
    LINEAR, ANGULAR, LINEARPLAN and STOP, and in every state it reaches a
    call of [Compute] returns: the out-of-bounds read of the path follower
    is out of its reach. *)
Theorem X16_scheduler_never_faults (e : MC.Env) (period : R) (m : MC.t) :
  reachable m ->
  scheduled (TP.state (MC.tp m)) /\
  exists m', MC.Compute e period m = Ok m'.
Proof.
  intros Hr. pose proof (reachable_scheduled m Hr) as Hs.
  split; [exact Hs |].
  destruct (MC.enable m) eqn:Hen;
    [destruct (tp_tick_dec m) as [Htick | Hoff] |].
  - rewrite Compute_on_grid by assumption. cbv zeta.
    destruct (TP_Compute_returns (MC.tp_env e) (tp_hint period)
                (MC.tp (MC.record (MC.EvTpCompute (tp_hint period))
                          (MC.pull e (sensed e m))))) as (s' & E).
    { apply scheduled_not_DRAWPLAN, pulled_scheduled, Hs. }
    rewrite E. cbn [bind]. eexists. reflexivity.
  - rewrite Compute_idle by auto. eexists. reflexivity.
  - rewrite Compute_idle by auto. eexists. reflexivity.
Qed.

Lemma X16_scheduler_witness :
  scheduled (TP.state (MC.tp mc_loaded)) /\
  exists m', MC.Compute env_obstacle 1%R mc_loaded = Ok m'.
Proof.
  apply X16_scheduler_never_faults. apply reach_queue, reach_init.
Defined.

(** X17. In every state the scheduler reaches, while the planner is in a
    mode other than FREE and STOP a call of [Compute] leaves the queue as
    it is: a waiting order never overwrites the one in progress. *)
Theorem X17_order_in_progress_is_not_overwritten
    (e : MC.Env) (period : R) (m m' : MC.t) :
  reachable m ->
  TP.moving (TP.state (MC.tp m)) = true ->
  MC.Compute e period m = Ok m' ->
  MC.Qorders m' = MC.Qorders m.
Proof.
  intros Hr Hmov H.
  pose proof (reachable_coherent m Hr Hmov) as Hbusy.
  destruct (clocked_fields m) as (_ & _ & Hqc & _).
  destruct (MC.enable m) eqn:Hen;
    [destruct (tp_tick_dec m) as [Htick | Hoff] |].
  - rewrite Compute_on_grid in H by assumption. cbv zeta in H.
    unbind H. injection H as <-.
    destruct (record_tp (MC.EvPcCompute (pc_hint period))
                (MC.set_tp a (MC.record (MC.EvTpCompute (tp_hint period))
                                (MC.pull e (sensed e m))))) as (_ & -> & _).
    replace (MC.Qorders (MC.set_tp a _))
      with (MC.Qorders (MC.pull e (sensed e m)))
      by (unfold MC.record; destruct (MC.pull e (sensed e m)); reflexivity).
    destruct (pull_fields e (sensed e m)) as (-> & _).
    rewrite sensed_finished. unfold TP.isFinished. rewrite Hbusy.
    destruct (sensed_fields e m) as (_ & _ & -> & _). reflexivity.
  - rewrite Compute_idle in H by auto. injection H as <-.
    destruct (_ && _); [| exact Hqc].
    destruct (record_tp (MC.EvPcCompute (pc_hint period)) (clocked m))
      as (_ & -> & _). exact Hqc.
  - rewrite Compute_idle in H by auto. injection H as <-.
    rewrite Hen. cbn [andb]. exact Hqc.
Qed.

(** Two commands: the first is taken at 200 ms and under way at 395 ms; at
    400 ms the second is still waiting. *)
Lemma X17_order_in_progress_witness :
  exists m m',
    MC.runs (repeat (env_clear, 1%R) 79) mc_loaded2 = Ok m /\
    MC.Compute env_clear 1%R m = Ok m' /\
    MC.Qorders m' = [cmd_golin].
Proof.
  destruct (MC.runs (repeat (env_clear, 1%R) 79) mc_loaded2) as [m | f] eqn:E;
    [| vm_compute in E; discriminate E].
  assert (Hr : reachable m).
  { eapply runs_reachable; [| exact E]. apply reach_queue, reach_init. }
  assert (Hm := E). vm_compute in Hm. injection Hm as Hm.
  destruct (MC.Compute env_clear 1%R m) as [m' | f] eqn:E';
    [| rewrite <- Hm in E'; vm_compute in E'; discriminate E'].
  exists m, m'. split; [reflexivity |]. split; [exact E' |].
  rewrite (X17_order_in_progress_is_not_overwritten env_clear 1%R m m' Hr);
    [rewrite <- Hm; reflexivity | rewrite <- Hm; reflexivity | exact E'].
Defined.

(** X18. An obstacle seen while the planner is idle does not hold back the
    next order: on a grid tick with the telemeter detecting, the planner
    reporting [isFinished] and a linear command at the head of the queue,
    Stop is issued and overwritten at once by the command, and the call
    leaves the planner in the mode LINEAR, the servo enabled and given the
    new set point. *)
Theorem X18_obstacle_does_not_hold_next_order
    (e : MC.Env) (period : R) (m : MC.t) (cmd : MC.cmd_t)
    (q : list MC.cmd_t) :
  MC.enable m = true ->
  MC.tp_tick m ->
  MC.Detect e = true ->
  TP.isFinished (MC.tp m) = true ->
  MC.Qorders m = cmd :: q ->
  MC.id cmd = MC.CMD_ID_GOLIN ->
  exists m',
    MC.Compute e period m = Ok m' /\
    TP.state (MC.tp m') = TP.LINEAR /\ TP.step (MC.tp m') = 2 /\
    MC.Qorders m' = q /\
    TP.calls (MC.tp m') =
      TP.calls (MC.tp m) ++
      [TP.Enable;
       TP.SetLinearPosition
         (TP.GetLinearPosition (MC.tp_env e) + MC.data_d cmd)%R;
       TP.SetAngularPosition (TP.GetAngularPosition (MC.tp_env e))].
Proof.
  intros Hen Htick Hdet Hfin Hq Hid.
  rewrite Compute_on_grid by assumption. cbv zeta.
  destruct (pull_fields e (sensed e m)) as (Hpq & _ & Hps).
  destruct (sensed_fields e m) as (_ & _ & Hsq & Hss & _).
  rewrite sensed_finished, Hfin in Hpq, Hps.
  rewrite Hsq, Hq in Hpq, Hps. rewrite Hss, Hdet in Hps. cbn [tl] in Hpq.
  destruct (record_tp (MC.EvTpCompute (tp_hint period))
              (MC.pull e (sensed e m))) as (Hrt & Hrq & _).
  rewrite Hrt, Hps. unfold MC.dispatch. rewrite Hid.
  rewrite Compute_update. unfold TP.update, TP.calculateGoLinear,
    TP.calculateMove, TP.emit.
  destruct (MC.tp m) as [w f st stp l ln a sm t0 sl sa el ea Xb Yb cnt cur cl].
  cbn. eexists. split; [reflexivity |].
  destruct (record_tp (MC.EvPcCompute (pc_hint period))
              (MC.set_tp
                 {| TP.status := wrap16 (Z.lor (wrap16 (Z.lor w 1))
                                           (Z.shiftl 1 8));
                    TP.finished := false; TP.state := TP.LINEAR;
                    TP.step := 2;
                    TP.linearSetPoint :=
                      (TP.GetLinearPosition (MC.tp_env e) + MC.data_d cmd)%R;
                    TP.linearNextSetPoint := ln; TP.angularSetPoint := a;
                    TP.stallMode := sm; TP.startTime := t0;
                    TP.startLinearPosition := sl;
                    TP.startAngularPosition := sa;
                    TP.endLinearPosition := el; TP.endAngularPosition := ea;
                    TP.X := Xb; TP.Y := Yb; TP.XYn := cnt; TP.n := cur;
                    TP.calls :=
                      ((cl ++ [TP.Enable]) ++
                       [TP.SetLinearPosition
                          (TP.GetLinearPosition (MC.tp_env e)
                           + MC.data_d cmd)%R]) ++
                      [TP.SetAngularPosition
                         (TP.GetAngularPosition (MC.tp_env e))] |}
                 (MC.record (MC.EvTpCompute (tp_hint period))
                    (MC.pull e (sensed e m))))) as (Ht' & Hq' & _).
  rewrite Ht', Hq'.
  replace (MC.tp (MC.set_tp _ _)) with
    {| TP.status := wrap16 (Z.lor (wrap16 (Z.lor w 1)) (Z.shiftl 1 8));
       TP.finished := false; TP.state := TP.LINEAR; TP.step := 2;
       TP.linearSetPoint :=
         (TP.GetLinearPosition (MC.tp_env e) + MC.data_d cmd)%R;
       TP.linearNextSetPoint := ln; TP.angularSetPoint := a;
       TP.stallMode := sm; TP.startTime := t0;
       TP.startLinearPosition := sl; TP.startAngularPosition := sa;
       TP.endLinearPosition := el; TP.endAngularPosition := ea;
       TP.X := Xb; TP.Y := Yb; TP.XYn := cnt; TP.n := cur;
       TP.calls :=
         ((cl ++ [TP.Enable]) ++
          [TP.SetLinearPosition
             (TP.GetLinearPosition (MC.tp_env e) + MC.data_d cmd)%R]) ++
         [TP.SetAngularPosition (TP.GetAngularPosition (MC.tp_env e))] |}
    by (destruct (MC.record _ _); reflexivity).
  replace (MC.Qorders (MC.set_tp _ _)) with q
    by (rewrite <- Hpq, <- Hrq; destruct (MC.record _ _); reflexivity).
  cbn. rewrite <- !app_assoc. repeat split; reflexivity.
Qed.

Lemma X18_obstacle_witness :
  exists m',
    MC.Compute env_obstacle 1%R mc_due = Ok m' /\
    TP.state (MC.tp m') = TP.LINEAR /\ MC.Qorders m' = [].
Proof.
  destruct (X18_obstacle_does_not_hold_next_order env_obstacle 1%R mc_due
              cmd_golin [] eq_refl eq_refl eq_refl eq_refl eq_refl eq_refl)
    as (m' & E & Hst & _ & Hq & _).
  exists m'. repeat split; assumption.
Defined.

(** X19. A command whose identifier is none of GOLIN, GOANG and GOTO is
    taken from the queue and dropped: the call returns with the queue
    shorter by its head and the planner as a tick without any order
    leaves it. *)
Theorem X19_unknown_command_is_dropped
    (e : MC.Env) (period : R) (m : MC.t) (cmd : MC.cmd_t)
    (q : list MC.cmd_t) (k : Z) (s : TP.t) :
  MC.enable m = true ->
  MC.tp_tick m ->
  MC.Detect e = false ->
  TP.isFinished (MC.tp m) = true ->
  MC.Qorders m = cmd :: q ->
  MC.id cmd = MC.CMD_ID_other k ->
  TP.Compute (MC.tp_env e) (tp_hint period) (MC.tp m) = Ok s ->
  exists m',
    MC.Compute e period m = Ok m' /\
    MC.tp m' = s /\ MC.Qorders m' = q.
Proof.
  intros Hen Htick Hdet Hfin Hq Hid Hs.
  rewrite Compute_on_grid by assumption. cbv zeta.
  destruct (pull_fields e (sensed e m)) as (Hpq & _ & Hps).
  destruct (sensed_fields e m) as (_ & _ & Hsq & Hss & _).
  rewrite sensed_finished, Hfin in Hpq, Hps.
  rewrite Hsq, Hq in Hpq, Hps. rewrite Hss, Hdet in Hps. cbn [tl] in Hpq.
  unfold MC.dispatch in Hps. rewrite Hid in Hps.
  destruct (record_tp (MC.EvTpCompute (tp_hint period))
              (MC.pull e (sensed e m))) as (Hrt & Hrq & _).
  rewrite Hrt, Hps, Hs. cbn [bind]. eexists. split; [reflexivity |].
  destruct (record_tp (MC.EvPcCompute (pc_hint period))
              (MC.set_tp s (MC.record (MC.EvTpCompute (tp_hint period))
                              (MC.pull e (sensed e m))))) as (-> & -> & _).
  split; [destruct (MC.record _ _); reflexivity |].
  rewrite <- Hpq, <- Hrq. destruct (MC.record _ _); reflexivity.
Qed.

Lemma X19_unknown_command_witness :
  exists m',
    MC.Compute env_clear 1%R mc_due_unknown = Ok m' /\
    TP.state (MC.tp m') = TP.FREE /\ MC.Qorders m' = [cmd_golin].
Proof.
  destruct (TP.Compute (MC.tp_env env_clear) (tp_hint 1%R)
              (MC.tp mc_due_unknown)) as [s | f] eqn:Es;
    [| vm_compute in Es; discriminate Es].
  destruct (X19_unknown_command_is_dropped env_clear 1%R mc_due_unknown
              cmd_unknown [cmd_golin] 99 s eq_refl eq_refl eq_refl eq_refl
              eq_refl eq_refl Es)
    as (m' & E & Hs & Hq).
  exists m'. split; [exact E |]. split; [| exact Hq].
  rewrite Hs. vm_compute in Es. injection Es as <-. reflexivity.
Defined.

End Orders2.

Section Clock.

Lemma Compute_localTime (e : MC.Env) (period : R) (m m' : MC.t) :
  MC.Compute e period m = Ok m' ->
  MC.localTime m' = wrap32 (MC.localTime m + 5).
Proof.
  intros H. destruct (clocked_fields m) as (_ & Ht & _).
  change MC.MC_TASK_PERIOD_MS with 5 in Ht. rewrite <- Ht.
  destruct (MC.enable m) eqn:Hen;
    [destruct (tp_tick_dec m) as [Htick | Hoff] |].
  - rewrite Compute_on_grid in H by assumption. cbv zeta in H.
    unbind H. injection H as <-.
    unfold sensed, MC.pull, MC.record, MC.Stop.
    destruct (MC.Detect e); destruct (clocked m) as [w en sg lt q st ev];
      cbn; destruct (TP.isFinished _); try destruct q; reflexivity.
  - rewrite Compute_idle in H by auto. injection H as <-.
    destruct (_ && _); [| reflexivity].
    unfold MC.record. destruct (clocked m); reflexivity.
  - rewrite Compute_idle in H by auto. injection H as <-.
    rewrite Hen. reflexivity.
Qed.

(** X20. Every call of [Compute] that returns advances the clock by 5 ms
    modulo 2^32, the scheduler enabled or not: after a run of calls the
    clock is the initial one plus 5 ms per call, modulo 2^32. *)
Theorem X20_clock_after_calls
    (l : list (MC.Env * R)) (m m' : MC.t) :
  0 <= MC.localTime m < 2 ^ 32 ->
  MC.runs l m = Ok m' ->
  MC.localTime m' = wrap32 (MC.localTime m + 5 * Z.of_nat (length l)).
Proof.
  revert m. induction l as [| [e period] l IH]; intros m Hb H;
    cbn [MC.runs] in H.
  - injection H as <-. cbn [length Z.of_nat]. rewrite Z.mul_0_r, Z.add_0_r.
    symmetry. apply wrap32_small. exact Hb.
  - unbind H. pose proof (Compute_localTime e period m a E) as Ha.
    rewrite (IH a) by (try exact H; rewrite Ha; unfold wrap32;
                       apply Z.mod_pos_bound; lia).
    rewrite Ha. unfold wrap32. rewrite Zplus_mod_idemp_l. f_equal.
    cbn [length]. lia.
Qed.

Lemma X20_clock_witness :
  exists m',
    MC.runs [(env_clear, 1%R); (env_obstacle, 1%R)] (MC.Disable mc_last_lap)
    = Ok m' /\
    MC.localTime m' = 9.
Proof.
  destruct (MC.runs [(env_clear, 1%R); (env_obstacle, 1%R)]
              (MC.Disable mc_last_lap)) as [m' | f] eqn:E;
    [| vm_compute in E; discriminate E].
  exists m'. split; [reflexivity |].
  rewrite (X20_clock_after_calls [(env_clear, 1%R); (env_obstacle, 1%R)]
             (MC.Disable mc_last_lap) m');
    [reflexivity | cbn; lia | exact E].
Defined.

(** X21. When the clock wraps around 2^32 ms it stops being a multiple of
    5 ms, 2^32 not being one; from that call on, and as long as the clock
    is not a multiple of 5 ms, a call of [Compute] returns without looking
    at the telemeter, taking an order or calling the planner or the
    position loop. *)
Theorem X21_wrapped_clock_dispatches_nothing
    (e : MC.Env) (period : R) (m : MC.t) :
  0 <= MC.localTime m < 2 ^ 32 ->
  (MC.localTime m mod 5 <> 0 /\ MC.localTime m + 5 < 2 ^ 32) \/
  (MC.localTime m mod 5 = 0 /\ 2 ^ 32 <= MC.localTime m + 5) ->
  exists m',
    MC.Compute e period m = Ok m' /\
    MC.tp m' = MC.tp m /\ MC.Qorders m' = MC.Qorders m /\
    MC.events m' = MC.events m /\
    MC.localTime m' mod 5 <> 0.
Proof.
  intros Hb Hcase.
  destruct (clocked_fields m) as (He & Ht & Hq & Hs & Hev).
  change MC.MC_TASK_PERIOD_MS with 5 in Ht.
  assert (H5 : wrap32 (MC.localTime m + 5) mod 5 <> 0).
  { unfold wrap32. change (2 ^ 32) with 4294967296 in *.
    Z.div_mod_to_equations. lia. }
  assert (Hoff : ~ MC.tp_tick m).
  { unfold MC.tp_tick. change MC.MC_TASK_PERIOD_MS with 5.
    change MC.TP_TASK_PERIOD_MS with 200. intros H200. apply H5.
    revert H200. generalize (wrap32 (MC.localTime m + 5)). intros z Hz.
    Z.div_mod_to_equations. lia. }
  assert (H100 : (MC.localTime (clocked m) mod 100 =? 0) = false).
  { rewrite Ht. apply Z.eqb_neq. intros Hz. apply H5.
    revert Hz. generalize (wrap32 (MC.localTime m + 5)). intros z Hz.
    Z.div_mod_to_equations. lia. }
  rewrite Compute_idle by auto. rewrite H100, andb_false_r.
  eexists. split; [reflexivity |]. rewrite Ht. auto.
Qed.

Lemma X21_wrapped_clock_witness :
  exists m',
    MC.Compute env_obstacle 1%R mc_last_lap = Ok m' /\
    MC.localTime m' = 4 /\ MC.Qorders m' = [cmd_golin] /\
    exists m'',
      MC.Compute env_obstacle 1%R m' = Ok m'' /\ MC.events m'' = [].
Proof.
  destruct (X21_wrapped_clock_dispatches_nothing env_obstacle 1%R mc_last_lap)
    as (m' & E & Hs & Hq & Hev & H5); [cbn; lia | right; cbn; lia |].
  exists m'. split; [exact E |].
  assert (Ht : MC.localTime m' = 4).
  { rewrite (Compute_localTime _ _ _ _ E). reflexivity. }
  split; [exact Ht |]. split; [exact Hq |].
  destruct (X21_wrapped_clock_dispatches_nothing env_obstacle 1%R m')
    as (m'' & E2 & _ & _ & Hev2 & _);
    [rewrite Ht; lia | left; rewrite Ht; cbn; lia |].
  exists m''. split; [exact E2 |]. rewrite Hev2, Hev. reflexivity.
Defined.

End Clock.

(** * The status lights *)

Section Lights.

(** The C test [status & (1 << b)] reads bit [b]. *)
Lemma flag_testbit (w b : Z) : 0 <= b -> Diag.flag w b = Z.testbit w b.
Proof.
  intros Hb. unfold Diag.flag.
  destruct (Z.testbit w b) eqn:Eb.
  - apply negb_true_iff, Z.eqb_neq. intros H0.
    assert (Hc : Z.testbit (Z.land w (Z.shiftl 1 b)) b = true).
    { rewrite Z.land_spec, Eb, testbit_flag, Z.eqb_refl by lia.
      reflexivity. }
    rewrite H0, Z.bits_0 in Hc. discriminate.
  - apply negb_false_iff, Z.eqb_eq. apply Z.bits_inj'. intros i Hi.
    rewrite Z.land_spec, Z.bits_0, testbit_flag by lia.
    destruct (Z.eqb_spec i b) as [-> | _];
      [rewrite Eb; reflexivity | apply andb_false_r].
Qed.

(** The scheduler writes the bits 0, 1 and 8 of its status and no other,
    and never touches its safeguard flag. *)
Lemma reachable_status (m : MC.t) :
  reachable m ->
  MC.safeguard m = true /\
  forall i, 0 <= i -> i <> 0 -> i <> 1 -> i <> 8 ->
            Z.testbit (MC.status m) i = false.
Proof.
  induction 1 as [Xr Yr | e period m m' Hr IH H | m Hr IH | m Hr IH
                 | m q Hr IH]; try (destruct m; exact IH).
  - split; [reflexivity |]. intros i _ _ _ _. apply Z.bits_0.
  - destruct IH as [Hsg Hbits]. split.
    + assert (Hc : MC.safeguard (clocked m) = MC.safeguard m).
      { unfold clocked, MC.refresh. destruct m as [w en sg lt q st ev]; cbn.
        destruct en, sg; cbn; destruct (TP.isFinished st); reflexivity. }
      rewrite <- Hsg, <- Hc.
      destruct (MC.enable m) eqn:Hen;
        [destruct (tp_tick_dec m) as [Htick | Hoff] |].
      * rewrite Compute_on_grid in H by assumption. cbv zeta in H.
        unbind H. injection H as <-.
        unfold sensed, MC.pull, MC.record, MC.Stop.
        destruct (MC.Detect e); destruct (clocked m) as [w en sg lt q st ev];
          cbn; destruct (TP.isFinished _); try destruct q; reflexivity.
      * rewrite Compute_idle in H by auto. injection H as <-.
        destruct (_ && _); [| reflexivity].
        unfold MC.record. destruct (clocked m); reflexivity.
      * rewrite Compute_idle in H by auto. injection H as <-.
        rewrite Hen. reflexivity.
    + intros i Hi H0 H1 H8.
      rewrite (Compute_status e period m m' H), refresh_bits by exact Hi.
      destruct (Z.eqb_spec i 0); [contradiction |].
      destruct (Z.eqb_spec i 1); [contradiction |].
      destruct (Z.eqb_spec i 8); [contradiction |].
      rewrite Hbits by assumption. apply andb_false_r.
Qed.

(** X22. Bit 9 of the scheduler's status, the "safeguard flag" that
    [Diag::Led] tests, is clear in every state the scheduler reaches: the
    third light is always set high and never toggled. *)
Theorem X22_third_light_never_blinks (m : MC.t) (localTime : Z) :
  reachable m ->
  In (Diag.Set_ Diag.led3 Diag.High)
     (snd (Diag.Led localTime (MC.status m))) /\
  ~ In (Diag.Toggle Diag.led3) (snd (Diag.Led localTime (MC.status m))).
Proof.
  intros Hr. destruct (reachable_status m Hr) as [_ Hbits].
  unfold Diag.Led. cbn [snd].
  rewrite (flag_testbit _ 9), (Hbits 9) by lia.
  split.
  - apply in_or_app. right. apply in_or_app. right. left. reflexivity.
  - intros Hin.
    repeat (apply in_app_or in Hin; destruct Hin as [Hin | Hin]);
      repeat match type of Hin with
             | In _ (if ?b then _ else _) => destruct b
             end;
      cbn in Hin; intuition discriminate.
Qed.

Lemma X22_third_light_witness :
  In (Diag.Set_ Diag.led3 Diag.High)
     (snd (Diag.Led 90 (MC.status mc_loaded))).
Proof.
  apply X22_third_light_never_blinks. apply reach_queue, reach_init.
Defined.

(** X23. What the lights show after a call of [Compute], in a state the
    scheduler reaches: the second light is low when the planner reported
    [isFinished] as the call began and high otherwise; the third is high;
    the fourth is high while the scheduler is enabled and toggles on the
    300 ms marks of the light's own clock while it is disabled. *)
Theorem X23_lights_after_Compute
    (e : MC.Env) (period : R) (m m' : MC.t) (localTime : Z) :
  reachable m ->
  MC.Compute e period m = Ok m' ->
  snd (Diag.Led localTime (MC.status m')) =
  (if wrap32 (localTime + 10) mod 500 =? 0
   then [Diag.Toggle Diag.led1] else []) ++
  [Diag.Set_ Diag.led2
     (if TP.isFinished (MC.tp m) then Diag.Low else Diag.High)] ++
  [Diag.Set_ Diag.led3 Diag.High] ++
  (if MC.enable m then [Diag.Set_ Diag.led4 Diag.High]
   else if wrap32 (localTime + 10) mod 300 =? 0
        then [Diag.Toggle Diag.led4] else []).
Proof.
  intros Hr H.
  assert (Hr' : reachable m') by (eapply reach_Compute; eassumption).
  destruct (reachable_status m Hr) as [Hsg _].
  destruct (reachable_status m' Hr') as [_ Hbits].
  pose proof (fun i Hi => Compute_status_bits e period m m' i H Hi) as Hb.
  unfold Diag.Led. cbn [snd].
  assert (H0 : (Z.land (MC.status m') (Z.shiftl 1 0) =? 0)
               = negb (MC.enable m)).
  { pose proof (flag_testbit (MC.status m') 0) as Hf. unfold Diag.flag in Hf.
    rewrite Hb in Hf by lia. cbn in Hf.
    rewrite <- Hf by lia. now rewrite negb_involutive. }
  assert (H1 : (Z.land (MC.status m') (Z.shiftl 1 1) =? 0) = false).
  { pose proof (flag_testbit (MC.status m') 1) as Hf. unfold Diag.flag in Hf.
    rewrite Hb in Hf by lia. cbn in Hf. rewrite Hsg in Hf.
    apply negb_true_iff. apply Hf. lia. }
  rewrite !flag_testbit by lia. rewrite (Hb 8), (Hbits 9) by lia.
  cbn [Z.eqb Pos.eqb]. rewrite H0, H1. cbn [andb].
  destruct (TP.isFinished (MC.tp m)), (MC.enable m); reflexivity.
Qed.

(** The first call on the loaded scheduler: planner idle, scheduler
    enabled. *)
Lemma X23_lights_witness :
  exists m',
    MC.Compute env_clear 1%R mc_loaded = Ok m' /\
    snd (Diag.Led 90 (MC.status m')) =
    [Diag.Set_ Diag.led2 Diag.Low; Diag.Set_ Diag.led3 Diag.High;
     Diag.Set_ Diag.led4 Diag.High].
Proof.
  destruct (MC.Compute env_clear 1%R mc_loaded) as [m' | f] eqn:E;
    [| vm_compute in E; discriminate E].
  exists m'. split; [reflexivity |].
  rewrite (X23_lights_after_Compute env_clear 1%R mc_loaded m' 90
             (reach_queue _ _ (reach_init zeros zeros)) E).
  reflexivity.
Defined.

End Lights.
